(** * dc.js chart core: filter manager, render lifecycle, ordering, stacking

    A shallow embedding of [src/base-mixin.js] (the closure state of
    [dc.baseMixin]) and of the stack mixin ([StackMixin], an ES6 class over
    the base chart), followed by the properties of the specification that
    concern them.

    Conventions of the embedding.
    - The closure variables of [dc.baseMixin] and the instance fields of
      [StackMixin] are the fields of one record, [Chart]; every method is a
      function from the chart state to a result and the next chart state.
    - What a method does to the outside world (listener dispatch, drawing
      hooks, control elements) is appended to the chart's [_log].
    - Filter values are arbitrary JavaScript values.  The code only compares
      them ([<=], [>=], [===]), tests them against [undefined] and looks for
      an [isFiltered] method (which throws on [undefined] and [null]), so
      they are kept abstract behind the class [JsValue]; [jsval] further
      down is a concrete fragment.
    - The per-stack titles are the own properties of a plain object; what
      that object inherits is part of the embedding ([readTitle],
      [canWriteTitle]).
    - Keys and values of group records are integer-valued numbers ([Z]). *)

From Stdlib Require Import Ascii String.
From stdpp Require Import base numbers option list sorting gmap strings pretty.

Local Open Scope string_scope.
Local Open Scope list_scope.

(* ================================================================= *)
(** ** JavaScript values as the filter manager sees them *)

Class JsValue (V : Type) : Type := {
  (** [a <= b] *)
  js_le : V -> V -> bool;
  (** [a === b] *)
  js_strict_eq : V -> V -> bool;
  (** [a === undefined] *)
  js_is_undefined : V -> bool;
  (** [a === null] *)
  js_is_null : V -> bool;
  (** [a.isFiltered], when the value exposes such a method *)
  js_isFiltered : V -> option (V -> bool)
}.

(** [a >= b] is [!(a < b)] with an incomparable pair giving [false], which
    is how [b <= a] is computed too. *)
Definition js_ge {V} `{JsValue V} (a b : V) : bool := js_le b a.

(** Records of a crossfilter group, as [group.all()] returns them. *)
Record Datum : Type := { key : Z; value : Z }.

(** A crossfilter group, reduced to what the chart reads from it. *)
Record Group : Type := { all : list Datum }.

(** An accessor is called as [accessor(d, i)]. *)
Definition Accessor : Type := Datum -> nat -> Z.

(** A title function: the built-in one, which reads the chart's accessors
    when it is called, or one supplied by the caller. *)
Inductive TitleFn : Type :=
  | DefaultTitle
  | CustomTitle (f : Datum -> string).

(** A property as a lookup along a prototype chain finds it: not there;
    there with a truthy or falsy value, and writable or not; or behind an
    accessor that throws. *)
Inductive Property : Type :=
  | PropAbsent
  | PropValue (truthy writable : bool)
  | PropThrows.

(** What a function object shows under a property name, through its own
    properties ([length], [name], ..) and its prototype chain. *)
Class FunctionObjects : Type := {
  functionProperty : TitleFn -> string -> Property
}.

(** The names of the properties of [Object.prototype], which every plain
    object inherits; each holds a truthy, writable value, except
    [__proto__], an accessor. *)
Definition objectPrototypeNames : list string :=
  [ "constructor"%string; "__defineGetter__"%string;
    "__defineSetter__"%string; "hasOwnProperty"%string;
    "__lookupGetter__"%string; "__lookupSetter__"%string;
    "isPrototypeOf"%string; "propertyIsEnumerable"%string;
    "toString"%string; "valueOf"%string; "__proto__"%string;
    "toLocaleString"%string ].

(** Second argument of [group(g, name)] and of [stack(g, name, ..)], by
    what [typeof] says of it. *)
Inductive NameArg : Type :=
  | NameUndefined
  | NameString (s : string)
  | NameFunction (f : Accessor).

(** First argument of the stack mixin's [title]. *)
Inductive TitleArg : Type :=
  | TitleUndefined
  | TitleString (s : string)
  | TitleFunction (f : TitleFn).

(** The chart's anchor: nothing yet, a DOM element (with its [id]), a
    selector string, or a d3 selection. *)
Inductive Anchor : Type :=
  | AnchorUnset
  | AnchorElement (id : string)
  | AnchorSelector (s : string)
  | AnchorSelection.

(** [_root]: [undefined] until anchored, possibly reset to [null]. *)
Inductive Root : Type := RootUndefined | RootNull | RootSelected.

Definition root_truthy (r : Root) : bool :=
  match r with RootSelected => true | _ => false end.

Inductive Exception : Type :=
  | InvalidStateException (msg : string).

Inductive Outcome : Type :=
  | Returned
  | Threw (e : Exception).

(** The hooks of the listener table that the lifecycle passes around by
    name. *)
Inductive Hook : Type := PostRender | PostRedraw.

(** A scale of the coordinate grid, reduced to its [domain()]. *)
Record Scale : Type := { domain : list Z }.

(** One point of a layer: [{x, y, data, layer, hidden}], with [y0] and [y1]
    absent until the stacking result is written back. *)
Record Point : Type := {
  p_x : Z;
  p_y : option Z;
  p_data : Datum;
  p_layer : string;
  p_hidden : option bool;
  p_y0 : option Z;
  p_y1 : option Z
}.

(** One layer of the stack: [{group, name?, accessor?, hidden?, values,
    domainValues}].  [l_hidden = None] is a layer whose [hidden] was never
    set; [l_values] and [l_domainValues] are empty until the layer is first
    prepared. *)
Record Layer : Type := {
  l_group : Group;
  l_name : option string;
  l_accessor : option Accessor;
  l_hidden : option bool;
  l_values : list Point;
  l_domainValues : list Point
}.

(** A row of the wide table handed to the stack layout: property name to
    value ([null] is [None]).  Properties that every object inherits are not
    part of the model. *)
Abbreviation Column := (gmap string (option Z)).

(** A stack layout: [layout.keys(keys)(data)], one series per key, one
    [[y0, y1]] pair per row. *)
Definition StackLayout : Type := list string -> list Column -> list (list (Z * Z)).

(** [crossfilter.quicksort.by(f)]: [sort(a, lo, hi)] sorts [a] in place
    between [lo] and [hi] and returns it. *)
Definition Sorter : Type := list Datum -> nat -> nat -> list Datum.

(** Arrays are objects: the heap maps a reference (an index) to the
    array's current contents. *)
Abbreviation Heap := (list (list Datum)).

Section Chart.
Context {V : Type} `{JsValue V}.

(** Argument of [filter]: [null], the bulk form [[[d1, d2, ..], ..]] (an
    array whose first element is an array and which has no [isFiltered]),
    or any other value. *)
Inductive FilterArg : Type :=
  | ArgNull
  | ArgBulk (inner : list V)
  | ArgValue (v : V).

(** A crossfilter dimension: whether it has a [filter] method, and the
    predicate last installed by [filterFunction] ([None] after
    [filter(null)]).  Called on a record, the predicate answers or throws
    ([None]). *)
Record Dimension : Type := {
  dim_filter_method : bool;
  dim_predicate : option (V -> option bool)
}.

(** A filter handler returns the filters it applied; a falsy return is
    [None]. *)
Definition FilterHandler : Type :=
  Dimension -> list V -> Dimension * option (list V).

Inductive Event : Type :=
  | EvPreRender
  | EvPostRender
  | EvPreRedraw
  | EvPostRedraw
  | EvFiltered (f : FilterArg)
  | EvZoomed
  | EvDoRender
  | EvDoRedraw
  | EvLegendRender
  | EvRenderlet (id : nat)
  | EvTransition (after : Hook)
  | EvControlsOn
  | EvControlsOff.

Record Chart : Type := {
  (* dc.baseMixin *)
  chartID : N;
  _dimension : option Dimension;
  _group : option Group;
  _groupName : NameArg;
  _anchor : Anchor;
  _root : Root;
  _svg : bool;
  _keyAccessor : Accessor;
  _valueAccessor : Accessor;
  _ordering : Datum -> Z;
  _orderSort : option Sorter;
  _title : TitleFn;
  _renderTitle : bool;
  _transitionDuration : Z;
  _renderlets : list nat;
  _mandatoryAttributes : option (list string);
  _legend : bool;
  _filters : list V;
  _filterHandler : FilterHandler;
  (** the rest of the chart object: for a property name, whether the chart
      has a method of that name and whether calling it without arguments
      gives a truthy value *)
  methods : string -> option bool;
  _log : list Event;
  (* StackMixin *)
  _stackLayout : StackLayout;
  _stack : list Layer;
  _titles : gmap string TitleFn;
  _hidableStacks : bool;
  _evadeDomainFilter : bool;
  (* coordinate grid, as far as the stack mixin reads it *)
  _x : option Scale;
  _isOrdinal : bool;
  _elasticX : bool
}.

(* ----------------------------------------------------------------- *)
(** *** Field updates *)

Definition set_log (c : Chart) (l : list Event) : Chart :=
  {| chartID := chartID c; _dimension := _dimension c; _group := _group c;
     _groupName := _groupName c; _anchor := _anchor c; _root := _root c;
     _svg := _svg c; _keyAccessor := _keyAccessor c;
     _valueAccessor := _valueAccessor c; _ordering := _ordering c;
     _orderSort := _orderSort c; _title := _title c;
     _renderTitle := _renderTitle c;
     _transitionDuration := _transitionDuration c;
     _renderlets := _renderlets c;
     _mandatoryAttributes := _mandatoryAttributes c; _legend := _legend c;
     _filters := _filters c; _filterHandler := _filterHandler c;
     methods := methods c; _log := l; _stackLayout := _stackLayout c;
     _stack := _stack c; _titles := _titles c;
     _hidableStacks := _hidableStacks c;
     _evadeDomainFilter := _evadeDomainFilter c; _x := _x c;
     _isOrdinal := _isOrdinal c; _elasticX := _elasticX c |}.

Definition set_filters (c : Chart) (fs : list V) : Chart :=
  {| chartID := chartID c; _dimension := _dimension c; _group := _group c;
     _groupName := _groupName c; _anchor := _anchor c; _root := _root c;
     _svg := _svg c; _keyAccessor := _keyAccessor c;
     _valueAccessor := _valueAccessor c; _ordering := _ordering c;
     _orderSort := _orderSort c; _title := _title c;
     _renderTitle := _renderTitle c;
     _transitionDuration := _transitionDuration c;
     _renderlets := _renderlets c;
     _mandatoryAttributes := _mandatoryAttributes c; _legend := _legend c;
     _filters := fs; _filterHandler := _filterHandler c;
     methods := methods c; _log := _log c; _stackLayout := _stackLayout c;
     _stack := _stack c; _titles := _titles c;
     _hidableStacks := _hidableStacks c;
     _evadeDomainFilter := _evadeDomainFilter c; _x := _x c;
     _isOrdinal := _isOrdinal c; _elasticX := _elasticX c |}.

Definition set_dimension (c : Chart) (d : option Dimension) : Chart :=
  {| chartID := chartID c; _dimension := d; _group := _group c;
     _groupName := _groupName c; _anchor := _anchor c; _root := _root c;
     _svg := _svg c; _keyAccessor := _keyAccessor c;
     _valueAccessor := _valueAccessor c; _ordering := _ordering c;
     _orderSort := _orderSort c; _title := _title c;
     _renderTitle := _renderTitle c;
     _transitionDuration := _transitionDuration c;
     _renderlets := _renderlets c;
     _mandatoryAttributes := _mandatoryAttributes c; _legend := _legend c;
     _filters := _filters c; _filterHandler := _filterHandler c;
     methods := methods c; _log := _log c; _stackLayout := _stackLayout c;
     _stack := _stack c; _titles := _titles c;
     _hidableStacks := _hidableStacks c;
     _evadeDomainFilter := _evadeDomainFilter c; _x := _x c;
     _isOrdinal := _isOrdinal c; _elasticX := _elasticX c |}.

Definition set_filterHandler (c : Chart) (h : FilterHandler) : Chart :=
  {| chartID := chartID c; _dimension := _dimension c; _group := _group c;
     _groupName := _groupName c; _anchor := _anchor c; _root := _root c;
     _svg := _svg c; _keyAccessor := _keyAccessor c;
     _valueAccessor := _valueAccessor c; _ordering := _ordering c;
     _orderSort := _orderSort c; _title := _title c;
     _renderTitle := _renderTitle c;
     _transitionDuration := _transitionDuration c;
     _renderlets := _renderlets c;
     _mandatoryAttributes := _mandatoryAttributes c; _legend := _legend c;
     _filters := _filters c; _filterHandler := h; methods := methods c;
     _log := _log c; _stackLayout := _stackLayout c; _stack := _stack c;
     _titles := _titles c; _hidableStacks := _hidableStacks c;
     _evadeDomainFilter := _evadeDomainFilter c; _x := _x c;
     _isOrdinal := _isOrdinal c; _elasticX := _elasticX c |}.

Definition set_group (c : Chart) (g : option Group) (name : NameArg) : Chart :=
  {| chartID := chartID c; _dimension := _dimension c; _group := g;
     _groupName := name; _anchor := _anchor c; _root := _root c;
     _svg := _svg c; _keyAccessor := _keyAccessor c;
     _valueAccessor := _valueAccessor c; _ordering := _ordering c;
     _orderSort := _orderSort c; _title := _title c;
     _renderTitle := _renderTitle c;
     _transitionDuration := _transitionDuration c;
     _renderlets := _renderlets c;
     _mandatoryAttributes := _mandatoryAttributes c; _legend := _legend c;
     _filters := _filters c; _filterHandler := _filterHandler c;
     methods := methods c; _log := _log c; _stackLayout := _stackLayout c;
     _stack := _stack c; _titles := _titles c;
     _hidableStacks := _hidableStacks c;
     _evadeDomainFilter := _evadeDomainFilter c; _x := _x c;
     _isOrdinal := _isOrdinal c; _elasticX := _elasticX c |}.

Definition set_valueAccessor (c : Chart) (f : Accessor) : Chart :=
  {| chartID := chartID c; _dimension := _dimension c; _group := _group c;
     _groupName := _groupName c; _anchor := _anchor c; _root := _root c;
     _svg := _svg c; _keyAccessor := _keyAccessor c; _valueAccessor := f;
     _ordering := _ordering c; _orderSort := _orderSort c;
     _title := _title c; _renderTitle := _renderTitle c;
     _transitionDuration := _transitionDuration c;
     _renderlets := _renderlets c;
     _mandatoryAttributes := _mandatoryAttributes c; _legend := _legend c;
     _filters := _filters c; _filterHandler := _filterHandler c;
     methods := methods c; _log := _log c; _stackLayout := _stackLayout c;
     _stack := _stack c; _titles := _titles c;
     _hidableStacks := _hidableStacks c;
     _evadeDomainFilter := _evadeDomainFilter c; _x := _x c;
     _isOrdinal := _isOrdinal c; _elasticX := _elasticX c |}.

Definition set_ordering (c : Chart) (o : Datum -> Z) (s : option Sorter) : Chart :=
  {| chartID := chartID c; _dimension := _dimension c; _group := _group c;
     _groupName := _groupName c; _anchor := _anchor c; _root := _root c;
     _svg := _svg c; _keyAccessor := _keyAccessor c;
     _valueAccessor := _valueAccessor c; _ordering := o; _orderSort := s;
     _title := _title c; _renderTitle := _renderTitle c;
     _transitionDuration := _transitionDuration c;
     _renderlets := _renderlets c;
     _mandatoryAttributes := _mandatoryAttributes c; _legend := _legend c;
     _filters := _filters c; _filterHandler := _filterHandler c;
     methods := methods c; _log := _log c; _stackLayout := _stackLayout c;
     _stack := _stack c; _titles := _titles c;
     _hidableStacks := _hidableStacks c;
     _evadeDomainFilter := _evadeDomainFilter c; _x := _x c;
     _isOrdinal := _isOrdinal c; _elasticX := _elasticX c |}.

Definition set_title (c : Chart) (t : TitleFn) (r : bool) : Chart :=
  {| chartID := chartID c; _dimension := _dimension c; _group := _group c;
     _groupName := _groupName c; _anchor := _anchor c; _root := _root c;
     _svg := _svg c; _keyAccessor := _keyAccessor c;
     _valueAccessor := _valueAccessor c; _ordering := _ordering c;
     _orderSort := _orderSort c; _title := t; _renderTitle := r;
     _transitionDuration := _transitionDuration c;
     _renderlets := _renderlets c;
     _mandatoryAttributes := _mandatoryAttributes c; _legend := _legend c;
     _filters := _filters c; _filterHandler := _filterHandler c;
     methods := methods c; _log := _log c; _stackLayout := _stackLayout c;
     _stack := _stack c; _titles := _titles c;
     _hidableStacks := _hidableStacks c;
     _evadeDomainFilter := _evadeDomainFilter c; _x := _x c;
     _isOrdinal := _isOrdinal c; _elasticX := _elasticX c |}.

Definition set_stack (c : Chart) (st : list Layer) : Chart :=
  {| chartID := chartID c; _dimension := _dimension c; _group := _group c;
     _groupName := _groupName c; _anchor := _anchor c; _root := _root c;
     _svg := _svg c; _keyAccessor := _keyAccessor c;
     _valueAccessor := _valueAccessor c; _ordering := _ordering c;
     _orderSort := _orderSort c; _title := _title c;
     _renderTitle := _renderTitle c;
     _transitionDuration := _transitionDuration c;
     _renderlets := _renderlets c;
     _mandatoryAttributes := _mandatoryAttributes c; _legend := _legend c;
     _filters := _filters c; _filterHandler := _filterHandler c;
     methods := methods c; _log := _log c; _stackLayout := _stackLayout c;
     _stack := st; _titles := _titles c; _hidableStacks := _hidableStacks c;
     _evadeDomainFilter := _evadeDomainFilter c; _x := _x c;
     _isOrdinal := _isOrdinal c; _elasticX := _elasticX c |}.

Definition set_titles (c : Chart) (ts : gmap string TitleFn) : Chart :=
  {| chartID := chartID c; _dimension := _dimension c; _group := _group c;
     _groupName := _groupName c; _anchor := _anchor c; _root := _root c;
     _svg := _svg c; _keyAccessor := _keyAccessor c;
     _valueAccessor := _valueAccessor c; _ordering := _ordering c;
     _orderSort := _orderSort c; _title := _title c;
     _renderTitle := _renderTitle c;
     _transitionDuration := _transitionDuration c;
     _renderlets := _renderlets c;
     _mandatoryAttributes := _mandatoryAttributes c; _legend := _legend c;
     _filters := _filters c; _filterHandler := _filterHandler c;
     methods := methods c; _log := _log c; _stackLayout := _stackLayout c;
     _stack := _stack c; _titles := ts; _hidableStacks := _hidableStacks c;
     _evadeDomainFilter := _evadeDomainFilter c; _x := _x c;
     _isOrdinal := _isOrdinal c; _elasticX := _elasticX c |}.

Definition set_stackLayout (c : Chart) (sl : StackLayout) : Chart :=
  {| chartID := chartID c; _dimension := _dimension c; _group := _group c;
     _groupName := _groupName c; _anchor := _anchor c; _root := _root c;
     _svg := _svg c; _keyAccessor := _keyAccessor c;
     _valueAccessor := _valueAccessor c; _ordering := _ordering c;
     _orderSort := _orderSort c; _title := _title c;
     _renderTitle := _renderTitle c;
     _transitionDuration := _transitionDuration c;
     _renderlets := _renderlets c;
     _mandatoryAttributes := _mandatoryAttributes c; _legend := _legend c;
     _filters := _filters c; _filterHandler := _filterHandler c;
     methods := methods c; _log := _log c; _stackLayout := sl;
     _stack := _stack c; _titles := _titles c;
     _hidableStacks := _hidableStacks c;
     _evadeDomainFilter := _evadeDomainFilter c; _x := _x c;
     _isOrdinal := _isOrdinal c; _elasticX := _elasticX c |}.

Definition set_evadeDomainFilter (c : Chart) (b : bool) : Chart :=
  {| chartID := chartID c; _dimension := _dimension c; _group := _group c;
     _groupName := _groupName c; _anchor := _anchor c; _root := _root c;
     _svg := _svg c; _keyAccessor := _keyAccessor c;
     _valueAccessor := _valueAccessor c; _ordering := _ordering c;
     _orderSort := _orderSort c; _title := _title c;
     _renderTitle := _renderTitle c;
     _transitionDuration := _transitionDuration c;
     _renderlets := _renderlets c;
     _mandatoryAttributes := _mandatoryAttributes c; _legend := _legend c;
     _filters := _filters c; _filterHandler := _filterHandler c;
     methods := methods c; _log := _log c; _stackLayout := _stackLayout c;
     _stack := _stack c; _titles := _titles c;
     _hidableStacks := _hidableStacks c; _evadeDomainFilter := b; _x := _x c;
     _isOrdinal := _isOrdinal c; _elasticX := _elasticX c |}.

(** The coordinate grid's x scale, ordinal flag and elastic flag. *)
Definition set_x (c : Chart) (x : option Scale) (ordinal : bool) (elastic : bool) : Chart :=
  {| chartID := chartID c; _dimension := _dimension c; _group := _group c;
     _groupName := _groupName c; _anchor := _anchor c; _root := _root c;
     _svg := _svg c; _keyAccessor := _keyAccessor c;
     _valueAccessor := _valueAccessor c; _ordering := _ordering c;
     _orderSort := _orderSort c; _title := _title c;
     _renderTitle := _renderTitle c;
     _transitionDuration := _transitionDuration c;
     _renderlets := _renderlets c;
     _mandatoryAttributes := _mandatoryAttributes c; _legend := _legend c;
     _filters := _filters c; _filterHandler := _filterHandler c;
     methods := methods c; _log := _log c; _stackLayout := _stackLayout c;
     _stack := _stack c; _titles := _titles c;
     _hidableStacks := _hidableStacks c;
     _evadeDomainFilter := _evadeDomainFilter c; _x := x;
     _isOrdinal := ordinal; _elasticX := elastic |}.

(** The listener dispatch and the collaborator hooks leave a trace. *)
Definition emit (c : Chart) (e : Event) : Chart := set_log c (_log c ++ [e]).

(* ================================================================= *)
(** ** Filter set manager ([base-mixin.js]) *)

(** The loop of the function the default handler hands to
    [filterFunction]: the filters are tried in order, and reading
    [isFiltered] from a filter that is [undefined] or [null] is a
    [TypeError] ([None]). *)
Fixpoint acceptedBy (filters : list V) (d : V) : option bool :=
  match filters with
  | [] => Some false
  | filter :: filters' =>
      if js_is_undefined filter || js_is_null filter then None
      else if match js_isFiltered filter with
              | Some isFiltered => isFiltered d
              | None => false
              end
      then Some true
      else if js_le filter d && js_ge filter d then Some true
      else acceptedBy filters' d
  end.

(** The default [_filterHandler]. *)
Definition defaultFilterHandler : FilterHandler := fun dimension filters =>
  let cleared := {| dim_filter_method := dim_filter_method dimension;
                    dim_predicate := None |} in
  let dimension' :=
    if (length filters =? 0)%nat then cleared
    else {| dim_filter_method := dim_filter_method dimension;
            dim_predicate := Some (acceptedBy filters) |} in
  (dimension', Some filters).

(** [_chart.filterHandler(_)], the setter. *)
Definition filterHandler (c : Chart) (h : FilterHandler) : Chart :=
  set_filterHandler c h.

(** [_chart.filters()]. *)
Definition filters (c : Chart) : list V := _filters c.

(** [_chart.hasFilter()] without argument. *)
Definition hasFilter (c : Chart) : bool := (0 <? length (_filters c))%nat.

(** [_chart.hasFilter(filter)]. *)
Definition hasFilter_of (c : Chart) (filter : V) : bool :=
  existsb (fun f => js_le filter f && js_ge filter f) (_filters c).

(** [_chart._invokeFilteredListener(f)]. *)
Definition _invokeFilteredListener (c : Chart) (f : FilterArg) : Chart :=
  match f with
  | ArgValue v => if js_is_undefined v then c else emit c (EvFiltered f)
  | _ => emit c (EvFiltered f)
  end.

(** [applyFilters()]: the handler's return replaces [_filters] when it is
    truthy. *)
Definition applyFilters (c : Chart) : Chart :=
  match _dimension c with
  | Some dimension =>
      if dim_filter_method dimension then
        let '(dimension', fs) := _filterHandler c dimension (_filters c) in
        let c' := set_dimension c (Some dimension') in
        match fs with
        | Some fs => set_filters c' fs
        | None => c'
        end
      else c
  | None => c
  end.

(** The loop of [removeFilter]: drop the first stored filter that is
    symmetrically equal to the argument. *)
Fixpoint removeFirst (fs : list V) (x : V) : list V :=
  match fs with
  | [] => []
  | f :: fs' => if js_le f x && js_ge f x then fs' else f :: removeFirst fs' x
  end.

Definition removeFilter (c : Chart) (x : V) : Chart :=
  let c1 := set_filters c (removeFirst (_filters c) x) in
  _invokeFilteredListener (applyFilters c1) (ArgValue x).

Definition addFilter (c : Chart) (x : V) : Chart :=
  let c1 := set_filters c (_filters c ++ [x]) in
  _invokeFilteredListener (applyFilters c1) (ArgValue x).

Definition resetFilters (c : Chart) : Chart :=
  let c1 := set_filters c [] in
  _invokeFilteredListener (applyFilters c1) ArgNull.

(** [Array.prototype.indexOf], which compares with [===]. *)
Fixpoint indexOf (fs : list V) (d : V) : option nat :=
  match fs with
  | [] => None
  | f :: fs' => if js_strict_eq f d then Some 0%nat
                else S <$> indexOf fs' d
  end.

(** [fs.splice(fs.indexOf(d), 1)]: an index of [-1] counts from the end and
    removes the last element. *)
Definition spliceIndexOf (fs : list V) (d : V) : list V :=
  match indexOf fs d with
  | Some i => delete i fs
  | None => delete (length fs - 1)%nat fs
  end.

(** The [forEach] of the bulk form of [filter]. *)
Fixpoint toggleEach (fs : list V) (ds : list V) : list V :=
  match ds with
  | [] => fs
  | d :: ds' =>
      let fs' :=
        if existsb (fun f => js_le d f && js_ge d f) fs
        then spliceIndexOf fs d
        else fs ++ [d] in
      toggleEach fs' ds'
  end.

Definition turnOnControls (c : Chart) : Chart :=
  if root_truthy (_root c) then emit c EvControlsOn else c.

Definition turnOffControls (c : Chart) : Chart :=
  if root_truthy (_root c) then emit c EvControlsOff else c.

(** The tail of [filter]: [_root !== null && _chart.hasFilter()]. *)
Definition updateControls (c : Chart) : Chart :=
  if match _root c with RootNull => false | _ => true end && hasFilter c
  then turnOnControls c
  else turnOffControls c.

(** The list that [filter(_)] hands to [applyFilters]. *)
Definition pendingFilters (c : Chart) (a : FilterArg) : list V :=
  match a with
  | ArgBulk inner => toggleEach (_filters c) inner
  | ArgNull => []
  | ArgValue v =>
      if hasFilter_of c v then removeFirst (_filters c) v
      else _filters c ++ [v]
  end.

(** [_chart.filter(_)] with an argument. *)
Definition filter (c : Chart) (a : FilterArg) : Chart :=
  let c1 :=
    match a with
    | ArgBulk inner =>
        let c0 := set_filters c (toggleEach (_filters c) inner) in
        _invokeFilteredListener (applyFilters c0) a
    | ArgNull => resetFilters c
    | ArgValue v =>
        if hasFilter_of c v then removeFilter c v else addFilter c v
    end in
  updateControls c1.

(** [_chart.filter()] without argument: the first filter, or [null]. *)
Definition filter_get (c : Chart) : option V := head (_filters c).

(** [_chart.filterAll()]. *)
Definition filterAll (c : Chart) : Chart := filter c ArgNull.

(** [_chart.replaceFilter(_)]. *)
Definition replaceFilter (c : Chart) (a : FilterArg) : Chart :=
  filter (set_filters c []) a.

(* ================================================================= *)
(** ** Render and redraw lifecycle ([base-mixin.js]) *)

(** [a.replace('#', '')]: the first [#] is dropped. *)
Fixpoint dropFirstHash (s : string) : string :=
  match s with
  | EmptyString => EmptyString
  | String a s' =>
      if Ascii.eqb a "#"%char then s' else String a (dropFirstHash s')
  end.

(** [_chart.anchorName()]. *)
Definition anchorName (c : Chart) : string :=
  match _anchor c with
  | AnchorElement id =>
      if String.eqb id "" then pretty (chartID c) else id
  | AnchorSelector a =>
      if String.eqb a "" then pretty (chartID c) else dropFirstHash a
  | _ => pretty (chartID c)
  end.

(** [_chart[a]] and the truthiness of [_chart[a]()]. *)
Definition chartMethod (c : Chart) (a : string) : option bool :=
  if String.eqb a "dimension" then Some (bool_decide (is_Some (_dimension c)))
  else if String.eqb a "group" then Some (bool_decide (is_Some (_group c)))
  else methods c a.

Definition checkForMandatoryAttributes (c : Chart) (a : string) : Outcome :=
  match chartMethod c a with
  | Some true => Returned
  | _ =>
      Threw (InvalidStateException
               ("Mandatory attribute chart." +:+ a +:+
                " is missing on chart[#" +:+ anchorName c +:+ "]"))
  end.

(** [_mandatoryAttributes.forEach(checkForMandatoryAttributes)]: the first
    exception ends the loop. *)
Fixpoint checkAll (c : Chart) (attrs : list string) : Outcome :=
  match attrs with
  | [] => Returned
  | a :: attrs' =>
      match checkForMandatoryAttributes c a with
      | Returned => checkAll c attrs'
      | Threw e => Threw e
      end
  end.

Definition hookEvent (h : Hook) : Event :=
  match h with PostRender => EvPostRender | PostRedraw => EvPostRedraw end.

Definition runAllRenderlets (c : Chart) : Chart :=
  foldl (fun c r => emit c (EvRenderlet r)) c (_renderlets c).

(** [_chart._activateRenderlets(event)]: with a positive duration and an
    svg the renderlets and the listener wait for the end of the transition,
    which the log records as one [EvTransition]. *)
Definition _activateRenderlets (c : Chart) (event : Hook) : Chart :=
  if (0 <? _transitionDuration c)%Z && _svg c
  then emit c (EvTransition event)
  else emit (runAllRenderlets c) (hookEvent event).

(** [_chart.render()]. *)
Definition render (c : Chart) : Outcome * Chart :=
  let c1 := emit c EvPreRender in
  let checked :=
    match _mandatoryAttributes c1 with
    | Some attrs => checkAll c1 attrs
    | None => Returned
    end in
  match checked with
  | Threw e => (Threw e, c1)
  | Returned =>
      let c2 := emit c1 EvDoRender in
      let c3 := if _legend c2 then emit c2 EvLegendRender else c2 in
      (Returned, _activateRenderlets c3 PostRender)
  end.

(** [_chart.redraw()]. *)
Definition redraw (c : Chart) : Outcome * Chart :=
  let c1 := emit c EvPreRedraw in
  let c2 := emit c1 EvDoRedraw in
  let c3 := if _legend c2 then emit c2 EvLegendRender else c2 in
  (Returned, _activateRenderlets c3 PostRedraw).

(* ================================================================= *)
(** ** Ordering utility ([base-mixin.js]) *)

Section Ordering.

(** [crossfilter.quicksort.by], which lives in the crossfilter library. *)
Variable quicksort_by_lib : (Datum -> Z) -> Sorter.

(** [_chart.ordering(o)], the setter. *)
Definition ordering (c : Chart) (o : Datum -> Z) : Chart :=
  set_ordering c o (Some (quicksort_by_lib o)).

(** [_chart._computeOrderedGroups(data)] on the array at reference [data]:
    the reference of the returned array, the heap and the chart afterwards.
    [None] when [data] is not the reference of an array. *)
Definition _computeOrderedGroups (c : Chart) (h : Heap) (data : nat)
  : option (nat * Heap * Chart) :=
  match h !! data with
  | None => None
  | Some contents =>
      (* data.slice(0) allocates *)
      let dataCopy := length h in
      let h1 := h ++ [contents] in
      if (length contents <=? 1)%nat then Some (dataCopy, h1, c)
      else
        let sorter :=
          match _orderSort c with
          | Some s => s
          | None => quicksort_by_lib (_ordering c)
          end in
        let c' := set_ordering c (_ordering c) (Some sorter) in
        Some (dataCopy,
              <[dataCopy := sorter contents 0%nat (length contents)]> h1,
              c')
  end.

End Ordering.

(* ================================================================= *)
(** ** Stack mixin *)

(** [_visibility(l)]: [!l.hidden]. *)
Definition _visibility (l : Layer) : bool :=
  negb match l_hidden l with Some true => true | _ => false end.

(** [a >= b] and [a <= b] against a possibly missing array element: a
    comparison with [undefined] is false. *)
Definition ge_elem (a : Z) (b : option Z) : bool :=
  match b with Some b => (b <=? a)%Z | None => false end.

Definition le_elem (a : Z) (b : option Z) : bool :=
  match b with Some b => (a <=? b)%Z | None => false end.

(** [_domainFilter()].  On an empty domain both bounds are [undefined]
    (the index [length - 1] is then [-1], here [0], with the same
    result). *)
Definition _domainFilter (c : Chart) : Point -> bool :=
  match _x c with
  | None => fun _ => true
  | Some x =>
      let xDomain := domain x in
      if _isOrdinal c then fun _ => true
      else if _elasticX c then fun _ => true
      else fun p =>
        ge_elem (p_x p) (xDomain !! 0%nat)
        && le_elem (p_x p) (xDomain !! (length xDomain - 1)%nat)
  end.

(** [_chart.evadeDomainFilter(b)], the setter. *)
Definition evadeDomainFilter (c : Chart) (b : bool) : Chart :=
  set_evadeDomainFilter c b.

(** [String(layer.name || layerIdx)]. *)
Definition resolvedName (name : option string) (layerIdx : nat) : string :=
  match name with
  | Some s => if String.eqb s "" then pretty layerIdx else s
  | None => pretty layerIdx
  end.

(** The [allValues] of [_prepareValues]. *)
Definition allValues (c : Chart) (layer : Layer) (layerIdx : nat)
  : list Point :=
  let valAccessor :=
    match l_accessor layer with
    | Some f => f
    | None => _valueAccessor c
    end in
  let name := resolvedName (l_name layer) layerIdx in
  imap (fun i d =>
          {| p_x := _keyAccessor c d i;
             p_y := match l_hidden layer with
                    | Some true => None
                    | _ => Some (valAccessor d i)
                    end;
             p_data := d;
             p_layer := name;
             p_hidden := l_hidden layer;
             p_y0 := None;
             p_y1 := None |})
       (all (l_group layer)).

(** [_prepareValues(layer, layerIdx)]: the layer after the call. *)
Definition _prepareValues (c : Chart) (layer : Layer) (layerIdx : nat)
  : Layer :=
  let allValues := allValues c layer layerIdx in
  let domainValues := List.filter (_domainFilter c) allValues in
  {| l_group := l_group layer;
     l_name := Some (resolvedName (l_name layer) layerIdx);
     l_accessor := l_accessor layer;
     l_hidden := l_hidden layer;
     l_values := if _evadeDomainFilter c then allValues else domainValues;
     l_domainValues := domainValues |}.

(** [stack(group, name, accessor)] with at least one argument; [accessor]
    is [None] when at most two arguments are passed, and then takes the
    value of [name]. *)
Definition stack (c : Chart) (group : Group) (name : NameArg)
    (accessor : option NameArg) : Chart :=
  let accessor := match accessor with Some a => a | None => name end in
  let layer :=
    {| l_group := group;
       l_name := match name with NameString s => Some s | _ => None end;
       l_accessor :=
         match accessor with NameFunction f => Some f | _ => None end;
       l_hidden := None;
       l_values := [];
       l_domainValues := [] |} in
  set_stack c (_stack c ++ [layer]).

(** [_chart.valueAccessor(f)], the setter. *)
Definition valueAccessor (c : Chart) (f : Accessor) : Chart :=
  set_valueAccessor c f.

(** The base mixin's [_chart.group(g, name)], the setter. *)
Definition base_group (c : Chart) (g : Group) (name : NameArg) : Chart :=
  set_group c (Some g) name.

(** The stack mixin's [group(g, n, f)] with arguments; [f] is [None] when
    absent or falsy. *)
Definition group (c : Chart) (g : Group) (n : NameArg) (f : option Accessor)
  : Chart :=
  let c1 := set_stack c [] in
  let c2 := set_titles c1 ∅ in
  let c3 := stack c2 g n None in
  let c4 := match f with Some f => valueAccessor c3 f | None => c3 end in
  base_group c4 g n.

(** What [title] returns: a title function, the value of a property the
    title table inherits, or the chart for chaining; or it throws a
    [TypeError]. *)
Inductive TitleResult : Type :=
  | TitleIs (t : TitleFn)
  | InheritedValue (name : string)
  | Chained
  | TitleTypeError.

Context `{FunctionObjects}.

(** [this._titles] is a plain object, [{}] at first: [_titles] holds its
    own properties.  A write to [__proto__] makes no own property but
    replaces the prototype of the object; the map keeps that prototype
    under the key [__proto__], which is free for it. *)

(** Reading [this._titles[name]], up to truthiness. *)
Inductive TitleLookup : Type :=
  | LookupOwn (t : TitleFn)
  | LookupInherited
  | LookupFalsy
  | LookupThrows.

Definition readTitle (titles : gmap string TitleFn) (name : string)
  : TitleLookup :=
  match titles !! name with
  | Some t => LookupOwn t
  | None =>
      match titles !! "__proto__" with
      | None =>
          if bool_decide (name ∈ objectPrototypeNames) then LookupInherited
          else LookupFalsy
      | Some proto =>
          match functionProperty proto name with
          | PropAbsent => LookupFalsy
          | PropValue true _ => LookupInherited
          | PropValue false _ => LookupFalsy
          | PropThrows => LookupThrows
          end
      end
  end.

(** Whether [this._titles[name] = titleAccessor] goes through; the class
    body is strict code, where a write that cannot be done throws. *)
Definition canWriteTitle (titles : gmap string TitleFn) (name : string)
  : bool :=
  if String.eqb name "__proto__" then true
  else
    match titles !! name, titles !! "__proto__" with
    | Some _, _ => true
    | None, None => true
    | None, Some proto =>
        match functionProperty proto name with
        | PropAbsent => true
        | PropValue _ writable => writable
        | PropThrows => false
        end
    end.

(** The base mixin's [_chart.title(_)], the setter. *)
Definition base_title (c : Chart) (t : TitleFn) : Chart := set_title c t true.

(** [stackName === this._groupName] for a string [stackName]. *)
Definition isGroupName (c : Chart) (stackName : string) : bool :=
  match _groupName c with
  | NameString s => String.eqb stackName s
  | _ => false
  end.

(** The stack mixin's [title(stackName, titleAccessor)]; [titleAccessor]
    is [None] when it is not a function. *)
Definition title (c : Chart) (stackName : TitleArg)
    (titleAccessor : option TitleFn) : TitleResult * Chart :=
  match stackName with
  | TitleUndefined => (TitleIs (_title c), c)
  | TitleFunction f => (Chained, base_title c f)
  | TitleString stackName =>
      if String.eqb stackName "" then (TitleIs (_title c), c)
      else
        match titleAccessor with
        | Some t =>
            if isGroupName c stackName then (Chained, base_title c t)
            else if canWriteTitle (_titles c) stackName
            then (Chained, set_titles c (<[stackName := t]> (_titles c)))
            else (TitleTypeError, c)
        | None =>
            match readTitle (_titles c) stackName with
            | LookupOwn t => (TitleIs t, c)
            | LookupInherited => (InheritedValue stackName, c)
            | LookupFalsy => (TitleIs (_title c), c)
            | LookupThrows => (TitleTypeError, c)
            end
        end
  end.

(** [_findLayerByName], [hideStack] and [showStack]. *)
Fixpoint setHiddenByName (st : list Layer) (n : string) (b : bool)
  : list Layer :=
  match st with
  | [] => []
  | l :: st' =>
      if bool_decide (l_name l = Some n)
      then {| l_group := l_group l; l_name := l_name l;
              l_accessor := l_accessor l; l_hidden := Some b;
              l_values := l_values l;
              l_domainValues := l_domainValues l |} :: st'
      else l :: setHiddenByName st' n b
  end.

Definition hideStack (c : Chart) (stackName : string) : Chart :=
  set_stack c (setHiddenByName (_stack c) stackName true).

Definition showStack (c : Chart) (stackName : string) : Chart :=
  set_stack c (setHiddenByName (_stack c) stackName false).

(** The name of a prepared layer. *)
Definition nameOf (l : Layer) : string := default "" (l_name l).

(** One row of [v4data]: [{x: v.x}] extended with [col[layer.name] =
    layer.values[i].y] for each layer in turn.  [None] is the [TypeError]
    of reading [y] from a missing point. *)
Definition column (layers : list Layer) (i : nat) (v : Point)
  : option Column :=
  foldl (fun col layer =>
           match col, l_values layer !! i with
           | Some col, Some p => Some (<[nameOf layer := p_y p]> col)
           | _, _ => None
           end)
        (Some {[ "x" := Some (p_x v) ]}) layers.

Definition setBaseline (p : Point) (ys : Z * Z) : Point :=
  {| p_x := p_x p; p_y := p_y p; p_data := p_data p; p_layer := p_layer p;
     p_hidden := p_hidden p; p_y0 := Some ys.1; p_y1 := Some ys.2 |}.

(** [series.forEach((ys, j) => ..)]: [None] is the [TypeError] of writing
    to a missing point. *)
Fixpoint writeSeries (values : list Point) (series : list (Z * Z)) (j : nat)
  : option (list Point) :=
  match series with
  | [] => Some values
  | ys :: series' =>
      match values !! j with
      | Some p => writeSeries (<[j := setBaseline p ys]> values) series' (S j)
      | None => None
      end
  end.

(** The points of a layer are shared between [values] and [domainValues]:
    when the domain filter is evaded, [domainValues] holds the points of
    [values] that pass it; otherwise both are one array. *)
Definition withValues (c : Chart) (layer : Layer) (values : list Point)
  : Layer :=
  {| l_group := l_group layer; l_name := l_name layer;
     l_accessor := l_accessor layer; l_hidden := l_hidden layer;
     l_values := values;
     l_domainValues :=
       if _evadeDomainFilter c then List.filter (_domainFilter c) values
       else values |}.

(** [v4result.forEach((series, i) => ..)]: [layers[i]] is read inside
    the inner loop only, so an empty series touches nothing, even at an
    index where there is no layer. *)
Fixpoint writeBack (c : Chart) (layers : list Layer)
    (v4result : list (list (Z * Z))) (i : nat) : option (list Layer) :=
  match v4result with
  | [] => Some layers
  | [] :: v4result' => writeBack c layers v4result' (S i)
  | series :: v4result' =>
      match layers !! i with
      | Some layer =>
          match writeSeries (l_values layer) series 0%nat with
          | Some values =>
              writeBack c (<[i := withValues c layer values]> layers)
                        v4result' (S i)
          | None => None
          end
      | None => None
      end
  end.

(** The visible layers are the very objects of [_stack]: what the data
    callback did to them shows in the stack. *)
Fixpoint putBack (st : list Layer) (layers : list Layer) : list Layer :=
  match st with
  | [] => []
  | l :: st' =>
      if _visibility l then
        match layers with
        | l' :: layers' => l' :: putBack st' layers'
        | [] => l :: putBack st' []
        end
      else l :: putBack st' layers
  end.

(** [_chart.data()] with the data callback installed by the stack mixin's
    constructor: the returned layers and the chart afterwards.  [None] is a
    [TypeError] (layers of different lengths, or a layout whose result does
    not fit the layers). *)
Definition data (c : Chart) : option (list Layer * Chart) :=
  let layers := List.filter _visibility (_stack c) in
  if (length layers =? 0)%nat then Some ([], c)
  else
    let layers := imap (fun i l => _prepareValues c l i) layers in
    match head layers with
    | None => None
    | Some first =>
        match mapM id (imap (column layers) (l_values first)) with
        | None => None
        | Some v4data =>
            let keys := map nameOf layers in
            let v4result := _stackLayout c keys v4data in
            match writeBack c layers v4result 0%nat with
            | None => None
            | Some layers' =>
                Some (layers', set_stack c (putBack (_stack c) layers'))
            end
        end
    end.

End Chart.

Arguments FilterArg V : clear implicits.
Arguments Dimension V : clear implicits.
Arguments FilterHandler V : clear implicits.
Arguments Event V : clear implicits.
Arguments Chart V : clear implicits.

(* ================================================================= *)
(** ** The libraries the chart is configured with by default *)

(** [+col[k]] as the layout reads it: [null] counts as [0]. *)
Definition columnValue (col : Column) (k : string) : Z :=
  match col !! k with
  | Some (Some y) => y
  | _ => 0%Z
  end.

(** One row of the default layout: each key's [(y0, y1)] in key order,
    given the top and the bottom reached so far. *)
Fixpoint stackRow (keys : list string) (col : Column) (top bottom : Z)
  : list (Z * Z) :=
  match keys with
  | [] => []
  | k :: keys' =>
      let y := columnValue col k in
      if (0 <=? y)%Z
      then (top, top + y)%Z :: stackRow keys' col (top + y)%Z bottom
      else (bottom, bottom + y)%Z :: stackRow keys' col top (bottom + y)%Z
  end.

(** Modelled from the spec: the default stack layout, [d3.stack()] of the
    d3 library, whose code is not under [src/].  Baseline stacking: for
    each key and each layer in list order a pair [(y0, y1)]; a positive
    value stacks upward from the previous top, a negative one downward
    from the previous bottom.  The result has one series per key and one
    pair per row. *)
Definition baselineStack : StackLayout := fun keys v4data =>
  imap (fun i _ =>
          map (fun col => default (0%Z, 0%Z) (stackRow keys col 0 0 !! i))
              v4data)
       keys.

(** Insertion before the first element whose key is not smaller. *)
Fixpoint insertByKey (f : Datum -> Z) (d : Datum) (sorted : list Datum)
  : list Datum :=
  match sorted with
  | [] => [d]
  | e :: sorted' =>
      if (f d <=? f e)%Z then d :: e :: sorted'
      else e :: insertByKey f d sorted'
  end.

Fixpoint sortByKey (f : Datum -> Z) (a : list Datum) : list Datum :=
  match a with
  | [] => []
  | d :: a' => insertByKey f d (sortByKey f a')
  end.

(** Modelled from the spec: [crossfilter.quicksort.by(f)] of the
    crossfilter library, whose code is not under [src/].  The sort the
    ordering utility relies on: ascending by extracted key, stable, here
    over the elements from [lo] up to [hi]. *)
Definition quicksort_by (f : Datum -> Z) : Sorter := fun a lo hi =>
  take lo a ++ sortByKey f (take (hi - lo) (drop lo a)) ++ drop hi a.

(* ================================================================= *)
(** ** A concrete fragment of JavaScript values *)

(** Integer-valued numbers, [NaN], [undefined], and plain objects (told
    apart by reference) that may carry an [isFiltered] method over
    numbers. *)
Inductive jsval : Type :=
  | JNum (z : Z)
  | JNaN
  | JUndefined
  | JObject (ref : nat) (isFiltered : option (Z -> bool)).

(** [a <= b]: numbers compare as numbers; [NaN] and [undefined] compare
    false with everything; two plain objects both convert to the string
    ["[object Object]"] and compare as equal strings; an object against a
    number converts to [NaN]. *)
Definition jsval_le (a b : jsval) : bool :=
  match a, b with
  | JNum x, JNum y => (x <=? y)%Z
  | JObject _ _, JObject _ _ => true
  | _, _ => false
  end.

Definition jsval_strict_eq (a b : jsval) : bool :=
  match a, b with
  | JNum x, JNum y => (x =? y)%Z
  | JUndefined, JUndefined => true
  | JObject r _, JObject r' _ => (r =? r')%nat
  | _, _ => false
  end.

Definition jsval_is_undefined (a : jsval) : bool :=
  match a with JUndefined => true | _ => false end.

(** The fragment has no [null]. *)
Definition jsval_is_null (a : jsval) : bool := false.

Definition jsval_isFiltered (a : jsval) : option (jsval -> bool) :=
  match a with
  | JObject _ (Some p) =>
      Some (fun d => match d with JNum z => p z | _ => false end)
  | _ => None
  end.

#[export] Instance jsval_JsValue : JsValue jsval := {|
  js_le := jsval_le;
  js_strict_eq := jsval_strict_eq;
  js_is_undefined := jsval_is_undefined;
  js_is_null := jsval_is_null;
  js_isFiltered := jsval_isFiltered
|}.

(** The function objects of the examples: anonymous strict functions of
    one argument.  [length] is 1 and read-only, [name] is the empty string
    and read-only, [arguments] and [caller] throw, and the methods of
    [Function.prototype] and [Object.prototype] are there and writable. *)
Definition strictFunctionProperty (f : TitleFn) (name : string) : Property :=
  if String.eqb name "length" then PropValue true false
  else if String.eqb name "name" then PropValue false false
  else if String.eqb name "arguments" || String.eqb name "caller"
  then PropThrows
  else if bool_decide
            (name ∈ [ "prototype"; "apply"; "bind"; "call" ]
                    ++ objectPrototypeNames)
  then PropValue true true
  else PropAbsent.

#[export] Instance strictFunctions : FunctionObjects := {|
  functionProperty := strictFunctionProperty
|}.

(* ================================================================= *)
(** ** A chart as the constructors leave it *)

(** [dc.pluck('key')] and [dc.pluck('value')]. *)
Definition pluck_key : Accessor := fun d _ => key d.
Definition pluck_value : Accessor := fun d _ => value d.

(** The state after [dc.baseMixin] and the [StackMixin] constructor, for a
    chart with the given id and further methods. *)
Definition newChart {V} `{JsValue V} (id : N) (others : string -> option bool)
  : Chart V :=
  {| chartID := id;
     _dimension := None;
     _group := None;
     _groupName := NameUndefined;
     _anchor := AnchorUnset;
     _root := RootUndefined;
     _svg := false;
     _keyAccessor := pluck_key;
     _valueAccessor := pluck_value;
     _ordering := key;
     _orderSort := None;
     _title := DefaultTitle;
     _renderTitle := false;
     _transitionDuration := 750;
     _renderlets := [];
     _mandatoryAttributes := Some ["dimension"; "group"];
     _legend := false;
     _filters := [];
     _filterHandler := defaultFilterHandler;
     methods := others;
     _log := [];
     _stackLayout := baselineStack;
     _stack := [];
     _titles := ∅;
     _hidableStacks := false;
     _evadeDomainFilter := false;
     _x := None;
     _isOrdinal := false;
     _elasticX := false |}.

(** [_chart.dimension(d)], the setter. *)
Definition dimension {V} `{JsValue V} (c : Chart V) (d : Dimension V)
  : Chart V :=
  set_dimension c (Some d).

(** The two layers of the stacking example. *)
Definition groupA : Group :=
  {| all := [ {| key := 1; value := 3 |}; {| key := 2; value := 5 |} ] |}.

Definition groupB : Group :=
  {| all := [ {| key := 1; value := 2 |}; {| key := 2; value := 1 |} ] |}.

(** [chart.group(groupA, 'A').stack(groupB, 'B')]. *)
Definition twoLayerChart : Chart jsval :=
  stack (group (newChart 1%N (fun _ => None)) groupA (NameString "A") None)
        groupB (NameString "B") None.

(** The [(x, y0, y1)] of a layer's points. *)
Definition baselines (l : Layer) : list (Z * option Z * option Z) :=
  map (fun p => (p_x p, p_y0 p, p_y1 p)) (l_values l).

(* ================================================================= *)
(** ** Vocabulary of the statements *)

Section Vocabulary.
Context {V : Type} `{JsValue V}.

(** The stored filters that are symmetrically equal to [v]. *)
Definition matching (v : V) (fs : list V) : list V :=
  List.filter (fun f => js_le v f && js_ge v f) fs.

(** The filter list comes back from [applyFilters] as it went in: no
    dimension is bound, or the handler returns its argument or nothing. *)
Definition passesThrough (c : Chart V) : Prop :=
  _dimension c = None \/
  forall d fs, (_filterHandler c d fs).2 = None
               \/ (_filterHandler c d fs).2 = Some fs.

(** The handler, if it is reached, answers the empty list with the empty
    list or with nothing. *)
Definition keepsEmpty (c : Chart V) : Prop :=
  forall d d' fs,
    _dimension c = Some d -> dim_filter_method d = true ->
    _filterHandler c d [] = (d', Some fs) -> fs = [].

(** The chart has a method [a] whose call gives a truthy value. *)
Definition attributePresent (c : Chart V) (a : string) : bool :=
  match chartMethod c a with Some true => true | _ => false end.

(** The cached sorter, when there is one, was made from the current
    ordering function: the two are only ever assigned together. *)
Definition orderSortCoherent (c : Chart V) : Prop :=
  _orderSort c = None \/ _orderSort c = Some (quicksort_by (_ordering c)).

(** The message of the invalid-state error for attribute [a]. *)
Definition missingMessage (c : Chart V) (a : string) : string :=
  "Mandatory attribute chart." +:+ a +:+ " is missing on chart[#"
  +:+ anchorName c +:+ "]".

End Vocabulary.

(** Example handlers and charts of the filter manager. *)

(** A handler that offsets numeric filters by ten before they are
    stored. *)
Definition offsetHandler : FilterHandler jsval := fun d fs =>
  (d, Some (map (fun f => match f with JNum z => JNum (z + 10) | _ => f end)
                fs)).

(** A handler that always reports one filter as applied. *)
Definition pinnedHandler : FilterHandler jsval := fun d _ =>
  (d, Some [JNum 42]).

Definition someDimension : Dimension jsval :=
  {| dim_filter_method := true; dim_predicate := None |}.

Definition plainChart : Chart jsval := newChart 1%N (fun _ => None).

(** A plain object with an [isFiltered] method accepting 1 to 5. *)
Definition rangeObject : jsval :=
  JObject 0 (Some (fun z => (1 <=? z)%Z && (z <=? 5)%Z)).

(* ================================================================= *)
(** ** Further methods of the chart *)

Section ChartSurface.
Context {V : Type} `{JsValue V}.

Definition set_anchor (c : Chart V) (a : Anchor) : Chart V :=
  {| chartID := chartID c; _dimension := _dimension c; _group := _group c;
     _groupName := _groupName c; _anchor := a; _root := _root c;
     _svg := _svg c; _keyAccessor := _keyAccessor c;
     _valueAccessor := _valueAccessor c; _ordering := _ordering c;
     _orderSort := _orderSort c; _title := _title c;
     _renderTitle := _renderTitle c;
     _transitionDuration := _transitionDuration c;
     _renderlets := _renderlets c;
     _mandatoryAttributes := _mandatoryAttributes c; _legend := _legend c;
     _filters := _filters c; _filterHandler := _filterHandler c;
     methods := methods c; _log := _log c; _stackLayout := _stackLayout c;
     _stack := _stack c; _titles := _titles c;
     _hidableStacks := _hidableStacks c;
     _evadeDomainFilter := _evadeDomainFilter c; _x := _x c;
     _isOrdinal := _isOrdinal c; _elasticX := _elasticX c |}.

Definition set_root (c : Chart V) (r : Root) : Chart V :=
  {| chartID := chartID c; _dimension := _dimension c; _group := _group c;
     _groupName := _groupName c; _anchor := _anchor c; _root := r;
     _svg := _svg c; _keyAccessor := _keyAccessor c;
     _valueAccessor := _valueAccessor c; _ordering := _ordering c;
     _orderSort := _orderSort c; _title := _title c;
     _renderTitle := _renderTitle c;
     _transitionDuration := _transitionDuration c;
     _renderlets := _renderlets c;
     _mandatoryAttributes := _mandatoryAttributes c; _legend := _legend c;
     _filters := _filters c; _filterHandler := _filterHandler c;
     methods := methods c; _log := _log c; _stackLayout := _stackLayout c;
     _stack := _stack c; _titles := _titles c;
     _hidableStacks := _hidableStacks c;
     _evadeDomainFilter := _evadeDomainFilter c; _x := _x c;
     _isOrdinal := _isOrdinal c; _elasticX := _elasticX c |}.

Definition set_svg (c : Chart V) (s : bool) : Chart V :=
  {| chartID := chartID c; _dimension := _dimension c; _group := _group c;
     _groupName := _groupName c; _anchor := _anchor c; _root := _root c;
     _svg := s; _keyAccessor := _keyAccessor c;
     _valueAccessor := _valueAccessor c; _ordering := _ordering c;
     _orderSort := _orderSort c; _title := _title c;
     _renderTitle := _renderTitle c;
     _transitionDuration := _transitionDuration c;
     _renderlets := _renderlets c;
     _mandatoryAttributes := _mandatoryAttributes c; _legend := _legend c;
     _filters := _filters c; _filterHandler := _filterHandler c;
     methods := methods c; _log := _log c; _stackLayout := _stackLayout c;
     _stack := _stack c; _titles := _titles c;
     _hidableStacks := _hidableStacks c;
     _evadeDomainFilter := _evadeDomainFilter c; _x := _x c;
     _isOrdinal := _isOrdinal c; _elasticX := _elasticX c |}.

Definition set_transitionDuration (c : Chart V) (d : Z) : Chart V :=
  {| chartID := chartID c; _dimension := _dimension c; _group := _group c;
     _groupName := _groupName c; _anchor := _anchor c; _root := _root c;
     _svg := _svg c; _keyAccessor := _keyAccessor c;
     _valueAccessor := _valueAccessor c; _ordering := _ordering c;
     _orderSort := _orderSort c; _title := _title c;
     _renderTitle := _renderTitle c; _transitionDuration := d;
     _renderlets := _renderlets c;
     _mandatoryAttributes := _mandatoryAttributes c; _legend := _legend c;
     _filters := _filters c; _filterHandler := _filterHandler c;
     methods := methods c; _log := _log c; _stackLayout := _stackLayout c;
     _stack := _stack c; _titles := _titles c;
     _hidableStacks := _hidableStacks c;
     _evadeDomainFilter := _evadeDomainFilter c; _x := _x c;
     _isOrdinal := _isOrdinal c; _elasticX := _elasticX c |}.

Definition set_renderlets (c : Chart V) (rs : list nat) : Chart V :=
  {| chartID := chartID c; _dimension := _dimension c; _group := _group c;
     _groupName := _groupName c; _anchor := _anchor c; _root := _root c;
     _svg := _svg c; _keyAccessor := _keyAccessor c;
     _valueAccessor := _valueAccessor c; _ordering := _ordering c;
     _orderSort := _orderSort c; _title := _title c;
     _renderTitle := _renderTitle c;
     _transitionDuration := _transitionDuration c; _renderlets := rs;
     _mandatoryAttributes := _mandatoryAttributes c; _legend := _legend c;
     _filters := _filters c; _filterHandler := _filterHandler c;
     methods := methods c; _log := _log c; _stackLayout := _stackLayout c;
     _stack := _stack c; _titles := _titles c;
     _hidableStacks := _hidableStacks c;
     _evadeDomainFilter := _evadeDomainFilter c; _x := _x c;
     _isOrdinal := _isOrdinal c; _elasticX := _elasticX c |}.

Definition set_mandatoryAttributes (c : Chart V) (m : option (list string)) : Chart V :=
  {| chartID := chartID c; _dimension := _dimension c; _group := _group c;
     _groupName := _groupName c; _anchor := _anchor c; _root := _root c;
     _svg := _svg c; _keyAccessor := _keyAccessor c;
     _valueAccessor := _valueAccessor c; _ordering := _ordering c;
     _orderSort := _orderSort c; _title := _title c;
     _renderTitle := _renderTitle c;
     _transitionDuration := _transitionDuration c;
     _renderlets := _renderlets c; _mandatoryAttributes := m;
     _legend := _legend c; _filters := _filters c;
     _filterHandler := _filterHandler c; methods := methods c;
     _log := _log c; _stackLayout := _stackLayout c; _stack := _stack c;
     _titles := _titles c; _hidableStacks := _hidableStacks c;
     _evadeDomainFilter := _evadeDomainFilter c; _x := _x c;
     _isOrdinal := _isOrdinal c; _elasticX := _elasticX c |}.

Definition set_legend (c : Chart V) (l : bool) : Chart V :=
  {| chartID := chartID c; _dimension := _dimension c; _group := _group c;
     _groupName := _groupName c; _anchor := _anchor c; _root := _root c;
     _svg := _svg c; _keyAccessor := _keyAccessor c;
     _valueAccessor := _valueAccessor c; _ordering := _ordering c;
     _orderSort := _orderSort c; _title := _title c;
     _renderTitle := _renderTitle c;
     _transitionDuration := _transitionDuration c;
     _renderlets := _renderlets c;
     _mandatoryAttributes := _mandatoryAttributes c; _legend := l;
     _filters := _filters c; _filterHandler := _filterHandler c;
     methods := methods c; _log := _log c; _stackLayout := _stackLayout c;
     _stack := _stack c; _titles := _titles c;
     _hidableStacks := _hidableStacks c;
     _evadeDomainFilter := _evadeDomainFilter c; _x := _x c;
     _isOrdinal := _isOrdinal c; _elasticX := _elasticX c |}.

Definition set_hidableStacks (c : Chart V) (b : bool) : Chart V :=
  {| chartID := chartID c; _dimension := _dimension c; _group := _group c;
     _groupName := _groupName c; _anchor := _anchor c; _root := _root c;
     _svg := _svg c; _keyAccessor := _keyAccessor c;
     _valueAccessor := _valueAccessor c; _ordering := _ordering c;
     _orderSort := _orderSort c; _title := _title c;
     _renderTitle := _renderTitle c;
     _transitionDuration := _transitionDuration c;
     _renderlets := _renderlets c;
     _mandatoryAttributes := _mandatoryAttributes c; _legend := _legend c;
     _filters := _filters c; _filterHandler := _filterHandler c;
     methods := methods c; _log := _log c; _stackLayout := _stackLayout c;
     _stack := _stack c; _titles := _titles c; _hidableStacks := b;
     _evadeDomainFilter := _evadeDomainFilter c; _x := _x c;
     _isOrdinal := _isOrdinal c; _elasticX := _elasticX c |}.

(** [_chart.root(r)], the setter. *)
Definition root (c : Chart V) (r : Root) : Chart V := set_root c r.

(** [_chart.svg(_)], the setter; the chart only tests the value for
    truthiness. *)
Definition svg (c : Chart V) (s : bool) : Chart V := set_svg c s.

(** [_chart.transitionDuration(d)], the setter. *)
Definition transitionDuration (c : Chart V) (d : Z) : Chart V :=
  set_transitionDuration c d.

(** [_chart.renderlet(_)]: renderlets are only ever appended. *)
Definition renderlet (c : Chart V) (r : nat) : Chart V :=
  set_renderlets c (_renderlets c ++ [r]).

(** [_chart._mandatoryAttributes(_)], the setter; a falsy argument is
    [None]. *)
Definition mandatoryAttributes (c : Chart V) (m : option (list string))
  : Chart V :=
  set_mandatoryAttributes c m.

(** [_chart.legend(l)], the setter, as far as the chart's own state
    goes. *)
Definition legend (c : Chart V) : Chart V := set_legend c true.

(** [hidableStacks(b)], the setter. *)
Definition hidableStacks (c : Chart V) (b : bool) : Chart V :=
  set_hidableStacks c b.

(** [_findLayerByName(n)]: the layer at the first index whose name is
    [n]; [indexOf] gives [-1] and the lookup [undefined] when there is
    none. *)
Definition _findLayerByName (c : Chart V) (n : string) : option Layer :=
  List.find (fun l => bool_decide (l_name l = Some n)) (_stack c).

(** [isLegendableHidden(d)] for a legend entry named [name]: the layer's
    [hidden] as it is (possibly [undefined]), or [false] without a
    layer. *)
Definition isLegendableHidden (c : Chart V) (name : string) : option bool :=
  match _findLayerByName c name with
  | Some layer => l_hidden layer
  | None => Some false
  end.

(** [legendToggle(d)] for a legend entry named [name]: the chart
    afterwards, and whether [renderGroup()] was called. *)
Definition legendToggle (c : Chart V) (name : string) : Chart V * bool :=
  if _hidableStacks c then
    (match isLegendableHidden c name with
     | Some true => showStack c name
     | _ => hideStack c name
     end, true)
  else (c, false).

(** One entry of [legendables()]: [{name, hidden, color}]; the entry's
    reference back to the chart is left out. *)
Record Legendable (C : Type) : Type := {
  lg_name : option string;
  lg_hidden : bool;
  lg_color : C
}.

(** [legendables()]; [getColor], from the color mixin, is called on the
    layer with its values and index. *)
Definition legendables {C : Type} (getColor : Layer -> list Point -> nat -> C)
    (c : Chart V) : list (Legendable C) :=
  imap (fun i layer =>
          {| lg_name := l_name layer;
             lg_hidden := match l_hidden layer with
                          | Some b => b
                          | None => false
                          end;
             lg_color := getColor layer (l_values layer) i |})
       (_stack c).

(* ----------------------------------------------------------------- *)
(** *** Vocabulary of the further statements *)

(** A filter from which no property can be read: [undefined] or
    [null]. *)
Definition nullish (f : V) : bool := js_is_undefined f || js_is_null f.

(** A filter accepts a record through its [isFiltered] method or by being
    symmetrically equal to it. *)
Definition accepts (f x : V) : bool :=
  match js_isFiltered f with
  | Some isFiltered => isFiltered x
  | None => false
  end || (js_le f x && js_ge f x).


(** What the data callback never changes in a layer. *)
Definition layerHead (l : Layer)
  : Group * option Accessor * option bool :=
  (l_group l, l_accessor l, l_hidden l).

(** The layers the data callback works on: the visible ones, and what
    [_prepareValues] makes of them, each at its index among them. *)
Definition visibleLayers (c : Chart V) : list Layer :=
  List.filter _visibility (_stack c).

Definition preparedLayers (c : Chart V) : list Layer :=
  imap (fun i l => _prepareValues c l i) (visibleLayers c).

(** A point without its baseline: what [_prepareValues] computes. *)
Definition pointCore (p : Point)
  : Z * option Z * Datum * string * option bool :=
  (p_x p, p_y p, p_data p, p_layer p, p_hidden p).

(** A layer with its [hidden] set. *)
Definition withHidden (l : Layer) (b : bool) : Layer :=
  {| l_group := l_group l; l_name := l_name l; l_accessor := l_accessor l;
     l_hidden := Some b; l_values := l_values l;
     l_domainValues := l_domainValues l |}.

(** The stack after [legendToggle] on the entry named [n], when stacks
    are hidable. *)
Definition toggledStack (st : list Layer) (n : string) : list Layer :=
  match match List.find (fun l => bool_decide (l_name l = Some n)) st with
        | Some layer => l_hidden layer
        | None => Some false
        end with
  | Some true => setHiddenByName st n false
  | _ => setHiddenByName st n true
  end.

(** A string without a [#]. *)
Fixpoint hashFree (s : string) : bool :=
  match s with
  | EmptyString => true
  | String a s' => negb (Ascii.eqb a "#"%char) && hashFree s'
  end.

End ChartSurface.

Arguments Legendable C : clear implicits.

(** Two plain objects without methods, and a group of one record. *)
Definition objectOne : jsval := JObject 1 None.
Definition objectTwo : jsval := JObject 2 None.

Definition groupShort : Group := {| all := [ {| key := 1; value := 4 |} ] |}.

(* ================================================================= *)
(** ** Filter set manager: properties *)

Section FilterFacts.
Context {V : Type} `{JsValue V}.
Implicit Types (c : Chart V) (v f : V) (fs : list V) (a : FilterArg V).

Lemma log_emit c (e : Event V) : _log (emit c e) = _log c ++ [e].
Proof. reflexivity. Qed.

Lemma filters_updateControls c : _filters (updateControls c) = _filters c.
Proof.
  unfold updateControls, turnOnControls, turnOffControls.
  destruct (_ && _); destruct (root_truthy _); reflexivity.
Qed.

Lemma filters_invoke c a :
  _filters (_invokeFilteredListener c a) = _filters c.
Proof.
  destruct a; simpl; try reflexivity.
  destruct (js_is_undefined v); reflexivity.
Qed.

Lemma filter_unfold c a :
  filter c a =
  updateControls
    (_invokeFilteredListener
       (applyFilters (set_filters c (pendingFilters c a))) a).
Proof.
  destruct a; simpl; try reflexivity.
  unfold filter, removeFilter, addFilter.
  destruct (hasFilter_of c v); reflexivity.
Qed.

Lemma filters_filter c a :
  _filters (filter c a) =
  _filters (applyFilters (set_filters c (pendingFilters c a))).
Proof.
  rewrite filter_unfold, filters_updateControls, filters_invoke.
  reflexivity.
Qed.

(** With a bound dimension the handler's answer is what gets stored. *)
Lemma applyFilters_stores c d d' applied :
  _dimension c = Some d -> dim_filter_method d = true ->
  _filterHandler c d (_filters c) = (d', Some applied) ->
  _filters (applyFilters c) = applied.
Proof.
  intros Hd Hm Hh. unfold applyFilters. rewrite Hd, Hm, Hh. reflexivity.
Qed.

Lemma applyFilters_passesThrough c :
  passesThrough c -> _filters (applyFilters c) = _filters c.
Proof.
  intros [Hnone | Hh]; unfold applyFilters.
  - rewrite Hnone. reflexivity.
  - destruct (_dimension c) as [d|]; [|reflexivity].
    destruct (dim_filter_method d); [|reflexivity].
    specialize (Hh d (_filters c)).
    destruct (_filterHandler c d (_filters c)) as [d' [fs'|]]; simpl in *.
    + destruct Hh as [Hh|Hh]; [discriminate|]. congruence.
    + reflexivity.
Qed.

Lemma handler_updateControls c :
  _filterHandler (updateControls c) = _filterHandler c
  /\ (_dimension (updateControls c) = _dimension c).
Proof.
  unfold updateControls, turnOnControls, turnOffControls.
  destruct (_ && _); destruct (root_truthy _); split; reflexivity.
Qed.

Lemma handler_invoke c a :
  _filterHandler (_invokeFilteredListener c a) = _filterHandler c
  /\ _dimension (_invokeFilteredListener c a) = _dimension c.
Proof.
  destruct a; simpl; try (split; reflexivity).
  destruct (js_is_undefined v); split; reflexivity.
Qed.

Lemma handler_applyFilters c :
  _filterHandler (applyFilters c) = _filterHandler c
  /\ (_dimension c = None -> _dimension (applyFilters c) = None).
Proof.
  unfold applyFilters.
  destruct (_dimension c) as [d|] eqn:Hd; [|split; [reflexivity|auto]].
  destruct (dim_filter_method d);
    [|split; [reflexivity | intros; congruence]].
  destruct (_filterHandler c d (_filters c)) as [d' [fs'|]];
    (split; [reflexivity | intros; discriminate]).
Qed.

Lemma passesThrough_filter c a :
  passesThrough c -> passesThrough (filter c a).
Proof.
  intros Hp. rewrite filter_unfold.
  set (c0 := set_filters c (pendingFilters c a)).
  assert (Hp0 : passesThrough c0) by exact Hp.
  destruct (handler_updateControls
              (_invokeFilteredListener (applyFilters c0) a)) as [E1 E2].
  destruct (handler_invoke (applyFilters c0) a) as [E3 E4].
  destruct (handler_applyFilters c0) as [E5 E6].
  unfold passesThrough. rewrite E1, E2, E3, E4, E5.
  destruct Hp0 as [Hn | Hh]; [left; auto | right; exact Hh].
Qed.

Lemma filters_filter_passesThrough c a :
  passesThrough c -> _filters (filter c a) = pendingFilters c a.
Proof.
  intros Hp. rewrite filters_filter.
  rewrite applyFilters_passesThrough; [reflexivity | exact Hp].
Qed.

(* ----------------------------------------------------------------- *)
(** *** The toggle on lists *)

Lemma existsb_snoc_self fs v :
  js_le v v = true ->
  existsb (fun f => js_le v f && js_ge v f) (fs ++ [v]) = true.
Proof.
  intros Hr. rewrite existsb_app. simpl. unfold js_ge.
  rewrite Hr. simpl. apply orb_true_r.
Qed.

Lemma removeFirst_snoc_absent fs v :
  js_le v v = true ->
  existsb (fun f => js_le v f && js_ge v f) fs = false ->
  removeFirst (fs ++ [v]) v = fs.
Proof.
  intros Hr. induction fs as [|f fs IH]; simpl; intros Hn.
  - unfold js_ge. rewrite Hr. reflexivity.
  - apply orb_false_iff in Hn as [Hf Hn].
    unfold js_ge in *. rewrite andb_comm, Hf. f_equal. auto.
Qed.

Lemma removeFirst_single_match fs v :
  (length (matching v fs) <= 1)%nat ->
  existsb (fun f => js_le v f && js_ge v f) fs = true ->
  existsb (fun f => js_le v f && js_ge v f) (removeFirst fs v) = false.
Proof.
  unfold matching. induction fs as [|f fs IH]; simpl; intros Hlen Hex.
  - discriminate.
  - unfold js_ge in *. rewrite (andb_comm (js_le f v)).
    destruct (js_le v f && js_le f v) eqn:Hf; simpl in *.
    + destruct (List.filter _ fs) as [|g gs] eqn:Hg; [|simpl in Hlen; lia].
      destruct (existsb _ fs) eqn:Hex'; [|reflexivity].
      apply existsb_exists in Hex' as (g & Hin & Hgm).
      assert (Hin' : In g (List.filter
                             (fun f0 => js_le v f0 && js_le f0 v) fs))
        by (apply filter_In; auto).
      rewrite Hg in Hin'. destruct Hin'.
    + rewrite Hf. simpl. apply IH; assumption.
Qed.

Lemma removeFirst_perm fs v :
  (forall f, f ∈ fs -> js_le v f && js_ge v f = true -> f = v) ->
  existsb (fun f => js_le v f && js_ge v f) fs = true ->
  removeFirst fs v ++ [v] ≡ₚ fs.
Proof.
  induction fs as [|f fs IH]; simpl; intros Heq Hex; [discriminate|].
  unfold js_ge in *. rewrite (andb_comm (js_le f v)).
  destruct (js_le v f && js_le f v) eqn:Hf; simpl in *.
  - rewrite (Heq f) by (auto; constructor).
    symmetry. apply Permutation_cons_append.
  - simpl. constructor. apply IH; [|assumption].
    intros g Hg. apply Heq. constructor. assumption.
Qed.

(** The default handler returns the list it was given, so a chart that
    keeps it meets both conditions on handlers used below. *)
Lemma defaultFilterHandler_passesThrough c :
  _filterHandler c = defaultFilterHandler -> passesThrough c.
Proof. intros E. right. intros d fs. rewrite E. right. reflexivity. Qed.

Lemma reset_effects c :
  _log (resetFilters c) = _log c ++ [EvFiltered ArgNull]
  /\ _root (resetFilters c) = _root c.
Proof.
  unfold resetFilters, applyFilters. simpl.
  destruct (_dimension c) as [d|]; [|split; reflexivity].
  destruct (dim_filter_method d); [|split; reflexivity].
  destruct (_filterHandler c d []) as [d' [fs'|]]; split; reflexivity.
Qed.

Lemma log_updateControls c :
  _log (updateControls c)
  = _log c ++ (if root_truthy (_root c)
               then [if hasFilter c then EvControlsOn else EvControlsOff]
               else []).
Proof.
  unfold updateControls, turnOnControls, turnOffControls.
  destruct (_root c); simpl; destruct (hasFilter c); simpl;
    rewrite ?app_nil_r; reflexivity.
Qed.

Lemma dimension_filter c a :
  _dimension (filter c a)
  = _dimension (applyFilters (set_filters c (pendingFilters c a))).
Proof.
  rewrite filter_unfold.
  destruct (handler_updateControls
              (_invokeFilteredListener
                 (applyFilters (set_filters c (pendingFilters c a))) a))
    as [_ E2].
  destruct (handler_invoke
              (applyFilters (set_filters c (pendingFilters c a))) a)
    as [_ E4].
  rewrite E2, E4. reflexivity.
Qed.

Lemma defaultFilterHandler_keepsEmpty c :
  _filterHandler c = defaultFilterHandler -> keepsEmpty c.
Proof.
  intros E d d' fs _ _. rewrite E. unfold defaultFilterHandler. simpl.
  intros Hf. injection Hf as _ <-. reflexivity.
Qed.

End FilterFacts.

Section FilterClaims.
Context {V : Type} `{JsValue V}.
Implicit Types (c : Chart V) (v f : V) (fs : list V) (a : FilterArg V).

(** C4, as the code has it: [hasFilter(v)] is true exactly when some
    stored filter [f] is symmetrically equal to [v] ([f <= v] and
    [f >= v]).  An [isFiltered] method of a stored filter is not
    consulted. *)
Theorem hasFilter_of_iff_symmetric c v :
  hasFilter_of c v = true <->
  exists f, f ∈ filters c /\ js_le f v = true /\ js_ge f v = true.
Proof.
  unfold hasFilter_of, filters, js_ge. rewrite existsb_exists. split.
  - intros (f & Hin & Hf). apply andb_true_iff in Hf as [H1 H2].
    exists f. rewrite list_elem_of_In. auto.
  - intros (f & Hin & H1 & H2). exists f.
    rewrite <- list_elem_of_In, H1, H2. auto.
Qed.

(** C8: when a filter mutation reaches a bound dimension, the list the
    handler returns (not the list [pendingFilters] it was given) is what
    [filters()], [hasFilter(v)] and [hasFilter()] answer from
    afterwards. *)
Theorem handler_result_is_stored c a d d' applied :
  _dimension c = Some d ->
  dim_filter_method d = true ->
  _filterHandler c d (pendingFilters c a) = (d', Some applied) ->
  filters (filter c a) = applied
  /\ (forall v, hasFilter_of (filter c a) v
                = existsb (fun f => js_le v f && js_ge v f) applied)
  /\ hasFilter (filter c a) = (0 <? length applied)%nat.
Proof.
  intros Hd Hm Hh.
  assert (E : _filters (filter c a) = applied).
  { rewrite filters_filter.
    apply (applyFilters_stores _ d d'); assumption. }
  unfold filters, hasFilter_of, hasFilter. rewrite E. auto.
Qed.

(** C7, as the code has it: [filter(null)], which is what [filterAll()]
    calls, fires the filtered listener exactly once, with [null], and then
    only updates the controls; it hands the empty list to the filter
    handler when a dimension with a filter method is bound, and what the
    handler answers is stored (the empty list when it answers nothing);
    without such a dimension the empty list is stored.  When the handler
    keeps the empty list empty (as the default one does, or when no
    dimension is bound) the filter set is empty afterwards, [hasFilter()]
    is false and the controls are turned off. *)
Theorem filter_null_clears c :
  filterAll c = filter c ArgNull
  /\ _log (filter c ArgNull)
     = _log c ++ EvFiltered ArgNull
       :: (if root_truthy (_root c)
           then [if hasFilter (filter c ArgNull)
                 then EvControlsOn else EvControlsOff]
           else [])
  /\ (forall d, _dimension c = Some d -> dim_filter_method d = true ->
        _dimension (filter c ArgNull) = Some (_filterHandler c d []).1
        /\ filters (filter c ArgNull) = default [] (_filterHandler c d []).2)
  /\ ((forall d, _dimension c = Some d -> dim_filter_method d = false) ->
      _dimension (filter c ArgNull) = _dimension c
      /\ filters (filter c ArgNull) = [])
  /\ (keepsEmpty c ->
      filters (filter c ArgNull) = []
      /\ hasFilter (filter c ArgNull) = false
      /\ _log (filter c ArgNull)
         = _log c ++ EvFiltered ArgNull
           :: (if root_truthy (_root c) then [EvControlsOff] else [])).
Proof.
  assert (L : _log (filter c ArgNull)
              = _log c ++ EvFiltered ArgNull
                :: (if root_truthy (_root c)
                    then [if hasFilter (filter c ArgNull)
                          then EvControlsOn else EvControlsOff]
                    else [])).
  { unfold hasFilter. rewrite filters_filter.
    change (filter c ArgNull) with (updateControls (resetFilters c)).
    destruct (reset_effects c) as [Hl Hr].
    rewrite log_updateControls, Hl, Hr, <- app_assoc.
    unfold hasFilter, resetFilters. rewrite filters_invoke. reflexivity. }
  split; [reflexivity|]. split; [exact L|]. split; [|split].
  - intros d Hd Hm. unfold filters.
    rewrite dimension_filter, filters_filter. unfold applyFilters.
    cbn [pendingFilters].
    change (_dimension (set_filters c [])) with (_dimension c).
    change (_filterHandler (set_filters c [])) with (_filterHandler c).
    change (_filters (set_filters c [])) with (@nil V).
    rewrite Hd, Hm.
    destruct (_filterHandler c d []) as [d' [fs'|]]; split; reflexivity.
  - intros Hno. unfold filters.
    rewrite dimension_filter, filters_filter. unfold applyFilters.
    cbn [pendingFilters].
    change (_dimension (set_filters c [])) with (_dimension c).
    destruct (_dimension c) as [d|] eqn:Hd;
      [rewrite (Hno d eq_refl)|]; (split; [exact Hd | reflexivity]).
  - intros Hk.
    assert (E : _filters (filter c ArgNull) = []).
    { rewrite filters_filter. simpl. unfold applyFilters. simpl.
      destruct (_dimension c) as [d|] eqn:Hd; [|reflexivity].
      destruct (dim_filter_method d) eqn:Hm; [|reflexivity].
      destruct (_filterHandler c d []) as [d' [fs'|]] eqn:Hh; [|reflexivity].
      simpl. eapply Hk; eauto. }
    assert (Eh : hasFilter (filter c ArgNull) = false)
      by (unfold hasFilter; rewrite E; reflexivity).
    split; [exact E|]. split; [exact Eh|].
    rewrite L, Eh. reflexivity.
Qed.

(** C2, as the code has it: for a value [v] with [v <= v], a filter list
    that passes [applyFilters] unchanged and at most one stored filter
    symmetrically equal to [v]: after the first [filter(v)],
    [hasFilter(v)] is the negation of what it was; after the second it is
    what it was, and the stored list is the original one when [v] was
    absent, and the original one with the matching filter taken out and
    [v] put at the end when [v] was present -- the same filters, possibly
    in another order, when that matching filter is [v] itself. *)
Theorem filter_toggle_twice c v :
  js_le v v = true ->
  passesThrough c ->
  (length (matching v (filters c)) <= 1)%nat ->
  let c1 := filter c (ArgValue v) in
  let c2 := filter c1 (ArgValue v) in
  hasFilter_of c1 v = negb (hasFilter_of c v)
  /\ hasFilter_of c2 v = hasFilter_of c v
  /\ filters c2 = (if hasFilter_of c v
                   then removeFirst (filters c) v ++ [v]
                   else filters c)
  /\ ((forall f, f ∈ filters c -> js_le v f && js_ge v f = true -> f = v) ->
      filters c2 ≡ₚ filters c).
Proof.
  intros Hr Hp Hone c1 c2.
  assert (Hp1 : passesThrough c1) by (apply passesThrough_filter; exact Hp).
  assert (E1 : _filters c1 = pendingFilters c (ArgValue v))
    by (apply filters_filter_passesThrough; exact Hp).
  assert (E2 : _filters c2 = pendingFilters c1 (ArgValue v))
    by (apply filters_filter_passesThrough; exact Hp1).
  simpl in E1, E2. unfold filters in *.
  assert (Hc1 : hasFilter_of c1 v = negb (hasFilter_of c v)).
  { unfold hasFilter_of at 1. rewrite E1.
    destruct (hasFilter_of c v) eqn:Hh; simpl.
    - apply removeFirst_single_match; assumption.
    - apply existsb_snoc_self; assumption. }
  rewrite Hc1 in E2.
  destruct (hasFilter_of c v) eqn:Hh; simpl in *.
  - rewrite E1 in E2. repeat split; try assumption.
    + unfold hasFilter_of. rewrite E2. apply existsb_snoc_self; assumption.
    + intros Heq. rewrite E2. apply removeFirst_perm; assumption.
  - rewrite E1 in E2.
    rewrite removeFirst_snoc_absent in E2 by assumption.
    repeat split; try assumption.
    + unfold hasFilter_of. rewrite E2. exact Hh.
    + intros _. rewrite E2. reflexivity.
Qed.

End FilterClaims.

(* ----------------------------------------------------------------- *)
(** *** The filter manager on concrete charts *)

(** C4: a stored object whose [isFiltered] accepts 3 does not make
    [hasFilter(3)] true. *)
Lemma hasFilter_of_ignores_isFiltered :
  let c := filter plainChart (ArgValue rangeObject) in
  ~ (hasFilter_of c (JNum 3) = true <->
     exists f, f ∈ filters c /\
       ((js_le f (JNum 3) = true /\ js_ge f (JNum 3) = true)
        \/ exists isFiltered, js_isFiltered f = Some isFiltered
                              /\ isFiltered (JNum 3) = true)).
Proof.
  intros c [_ Hback].
  assert (Hc : hasFilter_of c (JNum 3) = false) by reflexivity.
  rewrite Hc in Hback. enough (false = true) by discriminate.
  apply Hback. exists rangeObject. split.
  - apply list_elem_of_singleton. reflexivity.
  - right. eexists. split; reflexivity.
Qed.

Lemma hasFilter_of_iff_symmetric_witness :
  hasFilter_of (filter plainChart (ArgValue (JNum 3))) (JNum 3) = true.
Proof.
  apply hasFilter_of_iff_symmetric. exists (JNum 3).
  split; [apply list_elem_of_singleton; reflexivity | split; reflexivity].
Defined.

(** C8 at work: with the offsetting handler, [filter(5)] stores 15. *)
Lemma handler_result_is_stored_witness :
  let c := filterHandler (dimension plainChart someDimension) offsetHandler in
  filters (filter c (ArgValue (JNum 5))) = [JNum 15]
  /\ hasFilter_of (filter c (ArgValue (JNum 5))) (JNum 15) = true
  /\ hasFilter_of (filter c (ArgValue (JNum 5))) (JNum 5) = false.
Proof.
  intros c.
  destruct (handler_result_is_stored c (ArgValue (JNum 5)) someDimension
              someDimension [JNum 15]) as (E & Hv & _);
    [reflexivity | reflexivity | reflexivity |].
  split; [exact E|]. split; rewrite Hv; reflexivity.
Defined.

(** C7: a handler that reports a filter as applied whatever it is given
    leaves the chart filtered after [filter(null)]. *)
Lemma filter_null_keeps_handler_result :
  let c := filterHandler (dimension plainChart someDimension) pinnedHandler in
  filters (filter c ArgNull) = [JNum 42]
  /\ hasFilter (filter c ArgNull) = true
  /\ hasFilter (filterAll c) = true.
Proof. repeat split. Qed.

Lemma filter_null_clears_witness :
  let c := filter (dimension plainChart someDimension) (ArgValue (JNum 3)) in
  hasFilter c = true
  /\ (exists dm p, _dimension c = Some dm /\ dim_predicate dm = Some p)
  /\ _dimension (filter c ArgNull) = Some someDimension
  /\ hasFilter (filter c ArgNull) = false
  /\ _log (filter c ArgNull) = _log c ++ [EvFiltered ArgNull].
Proof.
  intros c. split; [reflexivity|].
  split; [eexists; eexists; split; reflexivity|].
  destruct (filter_null_clears c) as (_ & _ & Hhand & _ & Hkeep).
  destruct (Hhand {| dim_filter_method := true;
                     dim_predicate := Some (acceptedBy [JNum 3]) |}
                  eq_refl eq_refl) as [Hd _].
  destruct Hkeep as (_ & Hh & Hl);
    [apply defaultFilterHandler_keepsEmpty; reflexivity|].
  split; [rewrite Hd; reflexivity|].
  split; [exact Hh | exact Hl].
Defined.

Lemma filter_toggle_twice_witness :
  let c := filter (filter plainChart (ArgValue (JNum 2))) (ArgValue (JNum 1)) in
  let c1 := filter c (ArgValue (JNum 2)) in
  let c2 := filter c1 (ArgValue (JNum 2)) in
  hasFilter_of c (JNum 2) = true
  /\ hasFilter_of c1 (JNum 2) = false
  /\ hasFilter_of c2 (JNum 2) = true
  /\ filters c2 = [JNum 1; JNum 2]
  /\ filters c2 ≡ₚ filters c.
Proof.
  intros c c1 c2.
  destruct (filter_toggle_twice c (JNum 2)) as (H1 & H2 & H3 & H4).
  - reflexivity.
  - left. reflexivity.
  - vm_compute. lia.
  - split; [reflexivity|]. split; [exact H1|]. split; [exact H2|].
    split; [exact H3|]. apply H4.
    intros f Hf Hm. vm_compute in Hf.
    apply list_elem_of_In in Hf. simpl in Hf.
    destruct Hf as [<-|[<-|[]]]; [reflexivity | discriminate Hm].
Defined.

(** C2: two toggles do not always restore the state.  With 2 stored
    before 1, toggling 2 twice leaves 1 before 2, and [filter()] answers 1
    where it answered 2; [NaN] is never found again once added, so it is
    stored twice; and with a handler that transforms the filters the
    second toggle adds to what the first one stored. *)
Lemma filter_toggle_twice_not_identity :
  (let c := filter (filter plainChart (ArgValue (JNum 2)))
                   (ArgValue (JNum 1)) in
   let c2 := filter (filter c (ArgValue (JNum 2))) (ArgValue (JNum 2)) in
   filters c = [JNum 2; JNum 1] /\ filters c2 = [JNum 1; JNum 2]
   /\ filters c2 <> filters c
   /\ filter_get c = Some (JNum 2) /\ filter_get c2 = Some (JNum 1))
  /\ (let c1 := filter plainChart (ArgValue JNaN) in
      let c2 := filter c1 (ArgValue JNaN) in
      hasFilter_of plainChart JNaN = false
      /\ hasFilter_of c1 JNaN = false
      /\ filters plainChart = [] /\ filters c2 = [JNaN; JNaN])
  /\ (let c := filterHandler (dimension plainChart someDimension)
                             offsetHandler in
      let c1 := filter c (ArgValue (JNum 5)) in
      let c2 := filter c1 (ArgValue (JNum 5)) in
      hasFilter_of c (JNum 5) = false
      /\ hasFilter_of c1 (JNum 5) = false
      /\ filters c = [] /\ filters c2 = [JNum 25; JNum 15]).
Proof.
  split; [|split].
  - repeat split. intros E. vm_compute in E. discriminate E.
  - repeat split.
  - repeat split.
Qed.

(* ================================================================= *)
(** ** Render and redraw: properties *)

Lemma dropFirstHash_app (pre post : string) :
  hashFree pre = true ->
  dropFirstHash (pre +:+ String "#" post) = pre +:+ post.
Proof.
  induction pre as [|ch pre IH]; simpl; [reflexivity|].
  intros Hf. apply andb_true_iff in Hf as [Hc Hf].
  apply negb_true_iff in Hc. rewrite Hc, IH by exact Hf. reflexivity.
Qed.

Lemma dropFirstHash_free (s : string) :
  hashFree s = true -> dropFirstHash s = s.
Proof.
  induction s as [|ch s IH]; simpl; [reflexivity|].
  intros Hf. apply andb_true_iff in Hf as [Hc Hf].
  apply negb_true_iff in Hc. rewrite Hc, IH by exact Hf. reflexivity.
Qed.

Section LifecycleFacts.
Context {V : Type} `{JsValue V}.
Implicit Types (c : Chart V) (a : string) (attrs : list string).

Lemma anchorName_element c id :
  _anchor c = AnchorElement id -> id <> "" -> anchorName c = id.
Proof.
  intros E Hne. unfold anchorName. rewrite E.
  apply String.eqb_neq in Hne. rewrite Hne. reflexivity.
Qed.

Lemma anchorName_hash c pre post :
  _anchor c = AnchorSelector (pre +:+ String "#" post) ->
  hashFree pre = true -> anchorName c = pre +:+ post.
Proof.
  intros E Hf. unfold anchorName. rewrite E.
  assert (E' : String.eqb (pre +:+ String "#" post) "" = false)
    by (destruct pre; reflexivity).
  rewrite E'. apply dropFirstHash_app. exact Hf.
Qed.

Lemma anchorName_plain c s :
  _anchor c = AnchorSelector s -> s <> "" -> hashFree s = true ->
  anchorName c = s.
Proof.
  intros E Hne Hf. unfold anchorName. rewrite E.
  apply String.eqb_neq in Hne. rewrite Hne.
  apply dropFirstHash_free. exact Hf.
Qed.

Lemma anchorName_fallback c :
  _anchor c = AnchorUnset \/ _anchor c = AnchorSelection
  \/ _anchor c = AnchorElement "" \/ _anchor c = AnchorSelector "" ->
  anchorName c = pretty (chartID c).
Proof.
  unfold anchorName. intros [-> | [-> | [-> | ->]]]; reflexivity.
Qed.

Lemma check_present c a :
  attributePresent c a = true -> checkForMandatoryAttributes c a = Returned.
Proof.
  unfold attributePresent, checkForMandatoryAttributes.
  destruct (chartMethod c a) as [[|]|]; intros E; try discriminate E.
  reflexivity.
Qed.

Lemma check_missing c a :
  attributePresent c a = false ->
  checkForMandatoryAttributes c a
  = Threw (InvalidStateException (missingMessage c a)).
Proof.
  unfold attributePresent, checkForMandatoryAttributes, missingMessage.
  destruct (chartMethod c a) as [[|]|]; intros E; try discriminate E;
    reflexivity.
Qed.

Lemma checkAll_present c attrs :
  Forall (fun a => attributePresent c a = true) attrs ->
  checkAll c attrs = Returned.
Proof.
  induction 1 as [|a attrs Ha _ IH]; simpl; [reflexivity|].
  rewrite check_present by exact Ha. exact IH.
Qed.

Lemma checkAll_first_missing c before a after :
  Forall (fun b => attributePresent c b = true) before ->
  attributePresent c a = false ->
  checkAll c (before ++ a :: after)
  = Threw (InvalidStateException (missingMessage c a)).
Proof.
  induction 1 as [|b before Hb _ IH]; simpl; intros Ha.
  - rewrite check_missing by exact Ha. reflexivity.
  - rewrite check_present by exact Hb. auto.
Qed.

Lemma checkAll_emit c (e : Event V) attrs :
  checkAll (emit c e) attrs = checkAll c attrs.
Proof. induction attrs as [|a attrs IH]; simpl; [|rewrite IH]; reflexivity. Qed.

Lemma log_runAllRenderlets c :
  _log (runAllRenderlets c) = _log c ++ map EvRenderlet (_renderlets c).
Proof.
  unfold runAllRenderlets. generalize (_renderlets c) as rs. revert c.
  intros c rs. revert c. induction rs as [|r rs IH]; intros c; simpl.
  - rewrite app_nil_r. reflexivity.
  - rewrite IH, log_emit, <- app_assoc. reflexivity.
Qed.

Lemma log_activateRenderlets c h :
  exists rest, _log (_activateRenderlets c h) = _log c ++ rest
               /\ (EvDoRender ∉ rest) /\ (EvDoRedraw ∉ rest).
Proof.
  unfold _activateRenderlets. destruct (_ && _).
  - exists [EvTransition h]. rewrite log_emit.
    split; [reflexivity|]. split; intros Hin;
      apply list_elem_of_singleton in Hin; discriminate Hin.
  - exists (map EvRenderlet (_renderlets c) ++ [hookEvent h]).
    rewrite log_emit, log_runAllRenderlets, <- app_assoc.
    split; [reflexivity|].
    split; intros Hin; apply elem_of_app in Hin as [Hin|Hin].
    + apply list_elem_of_fmap in Hin as (r & E & _). discriminate E.
    + apply list_elem_of_singleton in Hin. destruct h; discriminate Hin.
    + apply list_elem_of_fmap in Hin as (r & E & _). discriminate E.
    + apply list_elem_of_singleton in Hin. destruct h; discriminate Hin.
Qed.

End LifecycleFacts.

Section LifecycleClaims.
Context {V : Type} `{JsValue V}.
Implicit Types (c : Chart V) (a : string) (attrs : list string).

(** C3: [render()] fires preRender first; when an attribute of the
    mandatory list is not a method of the chart returning a truthy value,
    it throws the invalid-state error naming the first such attribute and
    the chart's anchor, with nothing drawn (preRender is all that was
    logged); the anchor is named by the id of the anchor element, by the
    anchor selector without its first [#], or by the chart's id when
    there is neither.  When all attributes are there it goes on to the
    full-draw hook.  [redraw()] never consults the list: it fires
    preRedraw, calls the incremental-draw hook and returns. *)
Theorem render_validates_redraw_does_not c :
  (exists rest, _log (render c).2 = _log c ++ EvPreRender :: rest)
  /\ (forall attrs before a after,
        _mandatoryAttributes c = Some attrs ->
        attrs = before ++ a :: after ->
        Forall (fun b => attributePresent c b = true) before ->
        attributePresent c a = false ->
        (render c).1 = Threw (InvalidStateException (missingMessage c a))
        /\ _log (render c).2 = _log c ++ [EvPreRender]
        /\ let named who :=
             (render c).1
             = Threw (InvalidStateException
                        ("Mandatory attribute chart." +:+ a +:+
                         " is missing on chart[#" +:+ who +:+ "]")) in
           (forall id, _anchor c = AnchorElement id -> id <> "" -> named id)
           /\ (forall pre post,
                 _anchor c = AnchorSelector (pre +:+ String "#" post) ->
                 hashFree pre = true -> named (pre +:+ post))
           /\ (forall s, _anchor c = AnchorSelector s -> s <> "" ->
                         hashFree s = true -> named s)
           /\ (_anchor c = AnchorUnset \/ _anchor c = AnchorSelection
               \/ _anchor c = AnchorElement ""
               \/ _anchor c = AnchorSelector "" ->
               named (pretty (chartID c))))
  /\ ((forall attrs, _mandatoryAttributes c = Some attrs ->
                     Forall (fun b => attributePresent c b = true) attrs) ->
      (render c).1 = Returned
      /\ exists rest,
           _log (render c).2 = _log c ++ EvPreRender :: EvDoRender :: rest)
  /\ (redraw c).1 = Returned
  /\ (exists rest,
        _log (redraw c).2 = _log c ++ EvPreRedraw :: EvDoRedraw :: rest).
Proof.
  assert (Hdraw : forall c0 : Chart V, exists rest,
             _log (_activateRenderlets
                     (if _legend (emit c0 EvDoRender)
                      then emit (emit c0 EvDoRender) EvLegendRender
                      else emit c0 EvDoRender) PostRender)
             = _log c0 ++ EvDoRender :: rest).
  { intros c0. destruct (_legend _);
      match goal with |- context [_activateRenderlets ?x ?h] =>
        destruct (log_activateRenderlets x h) as (rest & E & _) end;
      rewrite E, ?log_emit, <- ?app_assoc; eexists; reflexivity. }
  assert (Hredraw : exists rest,
             _log (redraw c).2 = _log c ++ EvPreRedraw :: EvDoRedraw :: rest).
  { unfold redraw. cbn [snd]. destruct (_legend _);
      match goal with |- context [_activateRenderlets ?x ?h] =>
        destruct (log_activateRenderlets x h) as (rest & E & _) end;
      rewrite E, ?log_emit, <- ?app_assoc; eexists; reflexivity. }
  split; [|split; [|split; [|split; [reflexivity | exact Hredraw]]]].
  - unfold render.
    destruct (match _mandatoryAttributes (emit c EvPreRender) with
              | Some attrs => checkAll (emit c EvPreRender) attrs
              | None => Returned
              end).
    + cbn [snd]. destruct (Hdraw (emit c EvPreRender)) as (rest & E).
      rewrite E, log_emit, <- app_assoc. eexists; reflexivity.
    + cbn [snd]. rewrite log_emit. eexists; reflexivity.
  - intros attrs before a after Hattrs -> Hbefore Ha.
    assert (Hr : render c
                 = (Threw (InvalidStateException (missingMessage c a)),
                    emit c EvPreRender)).
    { unfold render.
      change (_mandatoryAttributes (emit c EvPreRender))
        with (_mandatoryAttributes c).
      rewrite Hattrs, checkAll_emit.
      rewrite checkAll_first_missing by assumption. reflexivity. }
    rewrite Hr. cbn [fst snd]. rewrite log_emit.
    split; [reflexivity|]. split; [reflexivity|].
    unfold missingMessage. split; [|split; [|split]].
    + intros id E Hne. rewrite (anchorName_element c id E Hne). reflexivity.
    + intros pre post E Hf. rewrite (anchorName_hash c pre post E Hf).
      reflexivity.
    + intros s E Hne Hf. rewrite (anchorName_plain c s E Hne Hf).
      reflexivity.
    + intros E. rewrite (anchorName_fallback c E). reflexivity.
  - intros Hall. unfold render.
    change (_mandatoryAttributes (emit c EvPreRender))
      with (_mandatoryAttributes c).
    assert (Hok : match _mandatoryAttributes c with
                  | Some attrs => checkAll (emit c EvPreRender) attrs
                  | None => Returned
                  end = Returned).
    { destruct (_mandatoryAttributes c) as [attrs|]; [|reflexivity].
      rewrite checkAll_emit. apply checkAll_present. apply Hall.
      reflexivity. }
    rewrite Hok. cbn [fst snd]. split; [reflexivity|].
    destruct (Hdraw (emit c EvPreRender)) as (rest & E).
    rewrite E, log_emit, <- app_assoc. eexists; reflexivity.
Qed.

End LifecycleClaims.

(** C3 on a fresh chart with id 7 and no dimension: the error names
    [dimension] and the chart's id; once the chart is anchored at
    [#chart-a] or at [div#a#b], or on an element with id [main], the
    error names that anchor. *)
Lemma render_validates_redraw_does_not_witness :
  let c : Chart jsval := newChart 7%N (fun _ => None) in
  (render c).1
  = Threw (InvalidStateException
             "Mandatory attribute chart.dimension is missing on chart[#7]")
  /\ (render (set_anchor c (AnchorSelector "#chart-a"))).1
     = Threw (InvalidStateException
          "Mandatory attribute chart.dimension is missing on chart[#chart-a]")
  /\ (render (set_anchor c (AnchorSelector "div#a#b"))).1
     = Threw (InvalidStateException
          "Mandatory attribute chart.dimension is missing on chart[#diva#b]")
  /\ (render (set_anchor c (AnchorElement "main"))).1
     = Threw (InvalidStateException
          "Mandatory attribute chart.dimension is missing on chart[#main]")
  /\ _log (render c).2 = [EvPreRender]
  /\ (redraw c).1 = Returned.
Proof.
  intros c.
  destruct (render_validates_redraw_does_not c) as (_ & Hfail & _ & Hre & _).
  destruct (Hfail ["dimension"; "group"] [] "dimension" ["group"])
    as (_ & Hlog & _ & _ & _ & Hid); try reflexivity; [constructor|].
  destruct (render_validates_redraw_does_not
              (set_anchor c (AnchorSelector "#chart-a"))) as (_ & Hfa & _).
  destruct (Hfa ["dimension"; "group"] [] "dimension" ["group"])
    as (_ & _ & _ & Hsel & _); try reflexivity; [constructor|].
  destruct (render_validates_redraw_does_not
              (set_anchor c (AnchorSelector "div#a#b"))) as (_ & Hfb & _).
  destruct (Hfb ["dimension"; "group"] [] "dimension" ["group"])
    as (_ & _ & _ & Hsel' & _); try reflexivity; [constructor|].
  destruct (render_validates_redraw_does_not
              (set_anchor c (AnchorElement "main"))) as (_ & Hfc & _).
  destruct (Hfc ["dimension"; "group"] [] "dimension" ["group"])
    as (_ & _ & Hel & _); try reflexivity; [constructor|].
  split; [rewrite Hid; [reflexivity | left; reflexivity]|].
  split; [apply (Hsel "" "chart-a"); reflexivity|].
  split; [apply (Hsel' "div" "a#b"); reflexivity|].
  split; [apply (Hel "main"); [reflexivity | discriminate]|].
  split; [exact Hlog | exact Hre].
Defined.

(* ================================================================= *)
(** ** Ordering utility: properties *)

Section SortFacts.
Variable f : Datum -> Z.

Lemma insertByKey_perm d l : insertByKey f d l ≡ₚ d :: l.
Proof.
  induction l as [|e l IH]; simpl; [reflexivity|].
  destruct (f d <=? f e)%Z; [reflexivity|].
  rewrite IH. apply Permutation_swap.
Qed.

Lemma sortByKey_perm l : sortByKey f l ≡ₚ l.
Proof.
  induction l as [|d l IH]; simpl; [reflexivity|].
  rewrite insertByKey_perm, IH. reflexivity.
Qed.

Lemma insertByKey_sorted d l :
  StronglySorted (fun x y => (f x <= f y)%Z) l ->
  StronglySorted (fun x y => (f x <= f y)%Z) (insertByKey f d l).
Proof.
  induction 1 as [|e l Hs IH Hall]; simpl.
  - repeat constructor.
  - destruct (f d <=? f e)%Z eqn:Hle.
    + apply Z.leb_le in Hle. constructor.
      * constructor; assumption.
      * constructor; [exact Hle|].
        eapply Forall_impl; [exact Hall|]. simpl. intros; lia.
    + apply Z.leb_gt in Hle. constructor; [exact IH|].
      rewrite insertByKey_perm. constructor; [lia | exact Hall].
Qed.

Lemma sortByKey_sorted l :
  StronglySorted (fun x y => (f x <= f y)%Z) (sortByKey f l).
Proof.
  induction l as [|d l IH]; simpl; [constructor|].
  apply insertByKey_sorted. exact IH.
Qed.

(** Inserting [d] passes only elements with a smaller key, so among the
    elements of any one key the order is kept. *)
Lemma insertByKey_stable k d l :
  List.filter (fun e => (f e =? k)%Z) (insertByKey f d l)
  = List.filter (fun e => (f e =? k)%Z) (d :: l).
Proof.
  induction l as [|e l IH]; [reflexivity|].
  cbn [insertByKey]. destruct (f d <=? f e)%Z eqn:Hle; [reflexivity|].
  apply Z.leb_gt in Hle. cbn [List.filter] in *. rewrite IH.
  destruct (f d =? k)%Z eqn:Hd; [|reflexivity].
  apply Z.eqb_eq in Hd.
  assert (He : (f e =? k)%Z = false) by (apply Z.eqb_neq; lia).
  rewrite He. reflexivity.
Qed.

Lemma sortByKey_stable k l :
  List.filter (fun e => (f e =? k)%Z) (sortByKey f l)
  = List.filter (fun e => (f e =? k)%Z) l.
Proof.
  induction l as [|d l IH]; [reflexivity|].
  cbn [sortByKey]. rewrite insertByKey_stable. cbn [List.filter].
  rewrite IH. reflexivity.
Qed.

Lemma quicksort_by_whole l :
  quicksort_by f l 0%nat (length l) = sortByKey f l.
Proof.
  unfold quicksort_by. rewrite Nat.sub_0_r, drop_0, take_0, firstn_all.
  rewrite drop_all, app_nil_r. reflexivity.
Qed.

End SortFacts.

Section OrderingClaims.
Context {V : Type} `{JsValue V}.

(** The ordering setter installs a sorter made from the new ordering
    function, and a fresh chart has none. *)
Lemma orderSortCoherent_ordering (c : Chart V) (o : Datum -> Z) :
  orderSortCoherent (ordering quicksort_by c o).
Proof. right. reflexivity. Qed.

Lemma orderSortCoherent_newChart id others :
  orderSortCoherent (newChart (V := V) id others).
Proof. left. reflexivity. Qed.

(** C5: [_computeOrderedGroups(data)] returns a new array -- the input
    array and every other array keep their contents -- holding the
    elements of the input sorted ascending by the configured ordering
    function, elements of equal key in their input order; an input of
    length 0 or 1 comes back with the same contents. *)
Theorem computeOrderedGroups_sorts_a_copy
    (c : Chart V) (h : Heap) (data : nat) (contents : list Datum) :
  h !! data = Some contents ->
  orderSortCoherent c ->
  exists result sorted h' c',
    _computeOrderedGroups quicksort_by c h data = Some (result, h', c')
    /\ (length h <= result)%nat
    /\ h' !! result = Some sorted
    /\ (forall r, (r < length h)%nat -> h' !! r = h !! r)
    /\ h' !! data = Some contents
    /\ sorted ≡ₚ contents
    /\ StronglySorted (fun x y => (_ordering c x <= _ordering c y)%Z) sorted
    /\ (forall k, List.filter (fun e => (_ordering c e =? k)%Z) sorted
                  = List.filter (fun e => (_ordering c e =? k)%Z) contents)
    /\ ((length contents <= 1)%nat -> sorted = contents)
    /\ orderSortCoherent c'.
Proof.
  intros Hdata Hcoh.
  assert (Hlt : (data < length h)%nat) by (eapply lookup_lt_Some; eauto).
  unfold _computeOrderedGroups. rewrite Hdata.
  destruct (length contents <=? 1)%nat eqn:Hlen.
  - apply Nat.leb_le in Hlen.
    exists (length h), contents, (h ++ [contents]), c.
    split; [reflexivity|]. split; [lia|].
    split; [apply list_lookup_middle; reflexivity|].
    split; [intros r Hr; apply lookup_app_l; exact Hr|].
    split; [rewrite lookup_app_l by exact Hlt; exact Hdata|].
    split; [reflexivity|].
    split.
    { destruct contents as [|x [|y l]]; simpl in Hlen; try lia;
        repeat constructor. }
    split; [reflexivity|]. split; [reflexivity | exact Hcoh].
  - apply Nat.leb_gt in Hlen.
    assert (Hs : match _orderSort c with
                 | Some s => s
                 | None => quicksort_by (_ordering c)
                 end = quicksort_by (_ordering c)).
    { destruct Hcoh as [-> | ->]; reflexivity. }
    rewrite Hs, quicksort_by_whole.
    exists (length h), (sortByKey (_ordering c) contents).
    eexists. eexists. split; [reflexivity|]. split; [lia|].
    assert (Hlen' : (length h < length (h ++ [contents]))%nat)
      by (rewrite length_app; simpl; lia).
    split; [apply list_lookup_insert_eq; exact Hlen'|].
    split.
    { intros r Hr. rewrite list_lookup_insert_ne by lia.
      apply lookup_app_l. exact Hr. }
    split.
    { rewrite list_lookup_insert_ne by lia.
      rewrite lookup_app_l by exact Hlt. exact Hdata. }
    split; [apply sortByKey_perm|].
    split; [apply sortByKey_sorted|].
    split; [intros k; apply sortByKey_stable|].
    split; [intros; lia | right; reflexivity].
Qed.

End OrderingClaims.

(** C5 on the array [[{key:3}, {key:1}, {key:2}]], alone in the heap at
    reference 0. *)
Lemma computeOrderedGroups_sorts_a_copy_witness :
  let k3 := {| key := 3; value := 0 |} in
  let k1 := {| key := 1; value := 0 |} in
  let k2 := {| key := 2; value := 0 |} in
  exists c',
    _computeOrderedGroups quicksort_by plainChart [[k3; k1; k2]] 0%nat
    = Some (1%nat, [[k3; k1; k2]; [k1; k2; k3]], c').
Proof.
  intros k3 k1 k2.
  destruct (computeOrderedGroups_sorts_a_copy
              plainChart [[k3; k1; k2]] 0%nat [k3; k1; k2])
    as (result & sorted & h' & c' & E & _);
    [reflexivity | apply orderSortCoherent_newChart |].
  exists c'. rewrite E. vm_compute in E.
  injection E as E1 E2 E3. rewrite <- E1, <- E2. reflexivity.
Defined.

(* ================================================================= *)
(** ** Stack mixin: properties *)


Lemma plain_name (s : string) :
  bool_decide (s ∈ objectPrototypeNames) = false ->
  s ∉ objectPrototypeNames.
Proof. apply bool_decide_eq_false. Qed.

Section StackClaims.
Context {V : Type} `{JsValue V} `{FunctionObjects}.
Implicit Types (c : Chart V) (layer : Layer).


(** C9: whatever was stacked and titled before, after [group(g, n, f)]
    the stack holds exactly one layer, for [g], named [n] when [n] is a
    string; no per-stack title is left; and a third argument [f] is the
    chart's value accessor. *)
Theorem group_resets_stack c (g : Group) (n : NameArg) (f : option Accessor) :
  let c' := group c g n f in
  (exists layer,
      _stack c' = [layer]
      /\ l_group layer = g
      /\ (forall s, n = NameString s -> l_name layer = Some s)
      /\ (n = NameUndefined -> l_name layer = None))
  /\ _titles c' = ∅
  /\ (forall acc, f = Some acc -> _valueAccessor c' = acc)
  /\ (f = None -> _valueAccessor c' = _valueAccessor c)
  /\ _group c' = Some g
  /\ _groupName c' = n.
Proof.
  intros c'. subst c'. unfold group, base_group, valueAccessor, stack.
  split.
  - eexists. split; [destruct f; reflexivity|].
    split; [reflexivity|]. cbn [l_name].
    split; [intros s ->; reflexivity | intros ->; reflexivity].
  - split; [destruct f; reflexivity|].
    split; [intros acc ->; reflexivity|].
    split; [intros ->; reflexivity|].
    split; destruct f; reflexivity.
Qed.


End StackClaims.

(** C1: the two-layer example.  [data()] returns the layers A and B in
    stack order; at [x = 1] A runs from 0 to 3 and B from 3 to 5, at
    [x = 2] A runs from 0 to 5 and B from 5 to 6. *)
Theorem stacking_two_layers :
  exists layerA layerB c',
    data twoLayerChart = Some ([layerA; layerB], c')
    /\ l_name layerA = Some "A"
    /\ baselines layerA = [(1, Some 0, Some 3); (2, Some 0, Some 5)]%Z
    /\ l_name layerB = Some "B"
    /\ baselines layerB = [(1, Some 3, Some 5); (2, Some 5, Some 6)]%Z
    /\ _stack c' = [layerA; layerB].
Proof.
  destruct (data twoLayerChart) as [[layers c']|] eqn:E;
    [|vm_compute in E; discriminate E].
  assert (El : map (fun l => (l_name l, baselines l)) layers
               = [(Some "A", [(1, Some 0, Some 3); (2, Some 0, Some 5)]);
                  (Some "B", [(1, Some 3, Some 5); (2, Some 5, Some 6)])]%Z
               /\ _stack c' = layers).
  { assert (E' : Some (layers, c') = data twoLayerChart) by (symmetry; exact E).
    vm_compute in E'. injection E' as -> ->. split; reflexivity. }
  destruct El as [El Es].
  destruct layers as [|layerA [|layerB [|? ?]]]; try discriminate El.
  injection El as EA1 EA2 EB1 EB2.
  exists layerA, layerB, c'. repeat split; assumption.
Qed.




(** C9 on a chart that already has two layers and a per-stack title:
    setting the group again leaves the one new layer and no title. *)
Lemma group_resets_stack_witness :
  let fn := CustomTitle (fun d => pretty (value d)) in
  let c := (title twoLayerChart (TitleString "B") (Some fn)).2 in
  let c' := group c groupB (NameString "B") (Some pluck_key) in
  length (_stack c) = 2%nat
  /\ _titles c !! "B" = Some fn
  /\ map l_name (_stack c') = [Some "B"]
  /\ map l_group (_stack c') = [groupB]
  /\ _titles c' = ∅
  /\ _valueAccessor c' = pluck_key.
Proof.
  intros fn c c'.
  destruct (group_resets_stack c groupB (NameString "B") (Some pluck_key))
    as ((layer & Hst & Hg & Hn & _) & Ht & Hacc & _).
  fold c' in Hst, Ht, Hacc.
  split; [reflexivity|]. split; [reflexivity|].
  rewrite Hst. cbn [map]. rewrite Hg, (Hn "B" eq_refl).
  split; [reflexivity|]. split; [reflexivity|].
  split; [exact Ht | apply Hacc; reflexivity].
Defined.

(* ================================================================= *)
(** ** Filter set manager: further properties *)

Section FilterMore.
Context {V : Type} `{JsValue V}.
Implicit Types (c : Chart V) (v f d : V) (fs ds : list V) (a : FilterArg V).




Lemma removeFirst_length fs v :
  existsb (fun f => js_le v f && js_ge v f) fs = true ->
  S (length (removeFirst fs v)) = length fs.
Proof.
  induction fs as [|f fs IH]; simpl; [discriminate|].
  unfold js_ge in *. rewrite (andb_comm (js_le f v)).
  destruct (js_le v f && js_le f v); simpl; [reflexivity|].
  intros Hex. rewrite IH by exact Hex. reflexivity.
Qed.

(** X2: when the list passes [applyFilters] unchanged, [filter(v)] changes
    the number of stored filters by exactly one: one less when
    [hasFilter(v)] was true, one more when it was false. *)
Theorem filter_value_length c v :
  passesThrough c ->
  if hasFilter_of c v
  then S (length (filters (filter c (ArgValue v)))) = length (filters c)
  else length (filters (filter c (ArgValue v))) = S (length (filters c)).
Proof.
  intros Hp. unfold filters.
  rewrite filters_filter_passesThrough by exact Hp. simpl.
  destruct (hasFilter_of c v) eqn:Hh.
  - apply removeFirst_length. exact Hh.
  - rewrite length_app. simpl. lia.
Qed.

(** X3: [replaceFilter(v)] never toggles off: whatever was stored, even [v]
    itself, the stored list is [[v]] afterwards (and empty after
    [replaceFilter(null)]), when the list passes [applyFilters]
    unchanged. *)
Theorem replaceFilter_single c v :
  passesThrough c ->
  filters (replaceFilter c (ArgValue v)) = [v]
  /\ filters (replaceFilter c ArgNull) = [].
Proof.
  intros Hp.
  assert (Hp0 : passesThrough (set_filters c [])) by exact Hp.
  unfold filters, replaceFilter.
  rewrite !filters_filter_passesThrough by exact Hp0.
  split; reflexivity.
Qed.

Lemma toggleEach_absent fs ds :
  (forall d, d ∈ ds -> existsb (fun f => js_le d f && js_ge d f) fs = false) ->
  (forall i j e d, (i < j)%nat -> ds !! i = Some e -> ds !! j = Some d ->
                   js_le d e && js_ge d e = false) ->
  toggleEach fs ds = fs ++ ds.
Proof.
  revert fs. induction ds as [|d ds IH]; intros fs Hfs Hds; simpl.
  - rewrite app_nil_r. reflexivity.
  - rewrite (Hfs d) by constructor.
    rewrite IH; [rewrite <- app_assoc; reflexivity| |].
    + intros d' Hd'. rewrite existsb_app. simpl.
      rewrite (Hfs d') by (constructor; exact Hd'). simpl.
      apply list_elem_of_lookup in Hd' as [j Hj].
      rewrite (Hds 0%nat (S j) d d') by (simpl; auto; lia). reflexivity.
    + intros i j e d' Hij Hi Hj.
      apply (Hds (S i) (S j) e d'); simpl; auto; lia.
Qed.

(** X4: the bulk form adds, in order, all the values of its inner array
    when none of them is symmetrically equal to a stored filter or to an
    earlier value of the array. *)
Theorem bulk_filter_adds_absent c ds :
  passesThrough c ->
  (forall d, d ∈ ds -> hasFilter_of c d = false) ->
  (forall i j e d, (i < j)%nat -> ds !! i = Some e -> ds !! j = Some d ->
                   js_le d e && js_ge d e = false) ->
  filters (filter c (ArgBulk ds)) = filters c ++ ds.
Proof.
  intros Hp Hfs Hds. unfold filters.
  rewrite filters_filter_passesThrough by exact Hp. simpl.
  apply toggleEach_absent; assumption.
Qed.

Lemma delete_last {A} (l : list A) :
  delete (length l - 1)%nat l = take (length l - 1)%nat l.
Proof.
  destruct l as [|x l]; [reflexivity|].
  rewrite delete_take_drop. cbn [length].
  replace (S (S (length l) - 1)) with (S (length l)) by lia.
  rewrite drop_ge by (simpl; lia). apply app_nil_r.
Qed.

(** X5: in the bulk form a value that [hasFilter] finds (by [<=] and
    [>=]) but [indexOf] does not (by [===]) takes the last stored filter
    out, whichever it is: [splice(-1, 1)]. *)
Theorem bulk_filter_splices_last c d :
  passesThrough c ->
  hasFilter_of c d = true ->
  indexOf (filters c) d = None ->
  filters (filter c (ArgBulk [d]))
  = take (length (filters c) - 1) (filters c).
Proof.
  intros Hp Hh Hi. unfold filters in *.
  rewrite filters_filter_passesThrough by exact Hp. simpl.
  unfold hasFilter_of in Hh. rewrite Hh. unfold spliceIndexOf.
  rewrite Hi. apply delete_last.
Qed.

Lemma acceptedBy_cons f fs x :
  acceptedBy (f :: fs) x
  = if nullish f then None
    else if accepts f x then Some true else acceptedBy fs x.
Proof.
  unfold nullish, accepts. simpl.
  destruct (js_is_undefined f || js_is_null f); [reflexivity|].
  destruct (match js_isFiltered f with
            | Some isFiltered => isFiltered x
            | None => false
            end); reflexivity.
Qed.

Lemma acceptedBy_spec fs x :
  (acceptedBy fs x = None <->
   exists pre f post,
     fs = pre ++ f :: post /\ nullish f = true
     /\ Forall (fun g => nullish g = false /\ accepts g x = false) pre)
  /\ (acceptedBy fs x = Some true <->
      exists pre f post,
        fs = pre ++ f :: post /\ nullish f = false /\ accepts f x = true
        /\ Forall (fun g => nullish g = false /\ accepts g x = false) pre).
Proof.
  induction fs as [|f fs [IHn IHt]].
  - simpl. split; (split; [discriminate|]);
      intros (pre & g & post & E & _); destruct pre; discriminate E.
  - rewrite acceptedBy_cons. split; split.
    + intros Hr. destruct (nullish f) eqn:Hn.
      * exists [], f, fs. repeat split; [exact Hn | constructor].
      * destruct (accepts f x) eqn:Ha; [discriminate|].
        apply IHn in Hr as (pre & g & post & -> & Hg & Hpre).
        exists (f :: pre), g, post. repeat split; [exact Hg|].
        constructor; auto.
    + intros (pre & g & post & E & Hg & Hpre).
      destruct pre as [|g0 pre]; simpl in E; injection E as -> ->.
      * rewrite Hg. reflexivity.
      * inversion Hpre as [|? ? [Hg0 Ha0] Hpre']; subst.
        rewrite Hg0, Ha0. apply IHn. exists pre, g, post. auto.
    + intros Hr. destruct (nullish f) eqn:Hn; [discriminate|].
      destruct (accepts f x) eqn:Ha.
      * exists [], f, fs. repeat split; [exact Hn | exact Ha|]. constructor.
      * apply IHt in Hr as (pre & g & post & -> & Hg & Hx & Hpre).
        exists (f :: pre), g, post. repeat split; [exact Hg | exact Hx|].
        constructor; auto.
    + intros (pre & g & post & E & Hg & Hx & Hpre).
      destruct pre as [|g0 pre]; simpl in E; injection E as -> ->.
      * rewrite Hg, Hx. reflexivity.
      * inversion Hpre as [|? ? [Hg0 Ha0] Hpre']; subst.
        rewrite Hg0, Ha0. apply IHt. exists pre, g, post. auto.
Qed.

Lemma acceptedBy_total fs x :
  Forall (fun f => nullish f = false) fs ->
  acceptedBy fs x = Some (existsb (fun f => accepts f x) fs).
Proof.
  induction 1 as [|f fs Hf _ IH]; [reflexivity|].
  rewrite acceptedBy_cons, Hf. simpl.
  destruct (accepts f x); [reflexivity | exact IH].
Qed.

(** X6: with the default filter handler and a bound dimension, every
    [filter(_)] call leaves the dimension with no predicate when no filter
    is stored, and otherwise with a predicate that tries the stored
    filters in order: it answers true at the first filter that accepts
    the record -- by its [isFiltered] method or by being symmetrically
    equal -- and throws if it comes to an [undefined] or [null] filter
    before that; with no such filter stored it is total and true exactly
    when some stored filter accepts the record. *)
Theorem default_handler_predicate c a dm :
  _filterHandler c = defaultFilterHandler ->
  _dimension c = Some dm ->
  dim_filter_method dm = true ->
  filters (filter c a) = pendingFilters c a
  /\ exists dm',
       _dimension (filter c a) = Some dm'
       /\ dim_filter_method dm' = true
       /\ match dim_predicate dm' with
          | None => filters (filter c a) = []
          | Some p =>
              filters (filter c a) <> []
              /\ forall x,
                   (p x = None <->
                    exists pre f post,
                      filters (filter c a) = pre ++ f :: post
                      /\ nullish f = true
                      /\ Forall (fun g => nullish g = false
                                          /\ accepts g x = false) pre)
                   /\ (p x = Some true <->
                       exists pre f post,
                         filters (filter c a) = pre ++ f :: post
                         /\ nullish f = false /\ accepts f x = true
                         /\ Forall (fun g => nullish g = false
                                             /\ accepts g x = false) pre)
                   /\ (Forall (fun f => nullish f = false)
                              (filters (filter c a)) ->
                       p x = Some (existsb (fun f => accepts f x)
                                           (filters (filter c a))))
          end.
Proof.
  intros Hh Hd Hm.
  assert (Hp : passesThrough c)
    by (apply defaultFilterHandler_passesThrough; exact Hh).
  unfold filters. rewrite filters_filter_passesThrough by exact Hp.
  split; [reflexivity|].
  rewrite filter_unfold.
  set (c0 := set_filters c (pendingFilters c a)).
  destruct (handler_updateControls
              (_invokeFilteredListener (applyFilters c0) a)) as [_ E2].
  destruct (handler_invoke (applyFilters c0) a) as [_ E4].
  rewrite E2, E4. unfold applyFilters.
  change (_dimension c0) with (_dimension c).
  change (_filterHandler c0) with (_filterHandler c).
  change (_filters c0) with (pendingFilters c a).
  rewrite Hd, Hm, Hh. unfold defaultFilterHandler.
  destruct (pendingFilters c a) as [|f0 fs0] eqn:Hpend.
  - eexists. split; [reflexivity|]. split; [exact Hm|]. reflexivity.
  - eexists. split; [reflexivity|]. split; [exact Hm|].
    cbn [length Nat.eqb dim_predicate]. split; [discriminate|].
    intros x. destruct (acceptedBy_spec (f0 :: fs0) x) as [Hn Ht].
    split; [exact Hn|]. split; [exact Ht | apply acceptedBy_total].
Qed.

End FilterMore.

Lemma filter_value_length_witness :
  let c := filter plainChart (ArgValue (JNum 3)) in
  length (filters (filter c (ArgValue (JNum 4)))) = 2%nat
  /\ length (filters (filter c (ArgValue (JNum 3)))) = 0%nat.
Proof.
  intros c.
  pose proof (filter_value_length c (JNum 4) (or_introl eq_refl)) as H4.
  pose proof (filter_value_length c (JNum 3) (or_introl eq_refl)) as H3.
  change (hasFilter_of c (JNum 4)) with false in H4.
  change (hasFilter_of c (JNum 3)) with true in H3.
  cbv beta iota in H4, H3.
  split; [rewrite H4; reflexivity | exact (Nat.succ_inj _ 0%nat H3)].
Defined.

Lemma replaceFilter_single_witness :
  let c := filter plainChart (ArgValue (JNum 3)) in
  filters (filter c (ArgValue (JNum 3))) = []
  /\ filters (replaceFilter c (ArgValue (JNum 3))) = [JNum 3].
Proof.
  intros c. split; [reflexivity|].
  apply (replaceFilter_single c (JNum 3)). left. reflexivity.
Defined.

Lemma bulk_filter_adds_absent_witness :
  let c := filter plainChart (ArgValue (JNum 3)) in
  filters (filter c (ArgBulk [JNum 1; JNum 2])) = [JNum 3; JNum 1; JNum 2].
Proof.
  intros c. apply (bulk_filter_adds_absent c [JNum 1; JNum 2]).
  - left. reflexivity.
  - intros d Hd. apply list_elem_of_In in Hd.
    destruct Hd as [<-|[<-|[]]]; reflexivity.
  - intros i j e d Hij Hi Hj.
    destruct i as [|[|i]]; destruct j as [|[|j]]; simpl in *;
      try lia; try discriminate.
    injection Hi as <-. injection Hj as <-. reflexivity.
Defined.

(** X5 with two distinct plain objects: toggling the second, which is
    only symmetrically equal to the stored first, removes the number
    stored last. *)
Lemma bulk_filter_splices_last_witness :
  let c := filter (filter plainChart (ArgValue objectOne))
                  (ArgValue (JNum 5)) in
  filters c = [objectOne; JNum 5]
  /\ filters (filter c (ArgBulk [objectTwo])) = [objectOne].
Proof.
  intros c. split; [reflexivity|].
  rewrite (bulk_filter_splices_last c objectTwo);
    [reflexivity | left; reflexivity | reflexivity | reflexivity].
Defined.

Lemma default_handler_predicate_witness :
  let c := dimension plainChart someDimension in
  (exists dm p,
      _dimension (filter c (ArgValue rangeObject)) = Some dm
      /\ dim_predicate dm = Some p
      /\ p (JNum 3) = Some true /\ p (JNum 7) = Some false)
  /\ (exists dm p,
         _dimension (filter (filter c (ArgValue JUndefined))
                            (ArgValue (JNum 3))) = Some dm
         /\ dim_predicate dm = Some p
         /\ p (JNum 3) = None).
Proof.
  intros c. split.
  - destruct (default_handler_predicate c (ArgValue rangeObject)
                someDimension) as (_ & dm & Hd & _ & _); try reflexivity.
    exists dm.
    assert (E : Some dm = _dimension (filter c (ArgValue rangeObject)))
      by (symmetry; exact Hd).
    vm_compute in E. injection E as ->.
    eexists. split; [exact Hd|]. split; [reflexivity|].
    split; reflexivity.
  - set (c1 := filter c (ArgValue JUndefined)).
    destruct (default_handler_predicate c1 (ArgValue (JNum 3))
                {| dim_filter_method := true;
                   dim_predicate := Some (acceptedBy [JUndefined]) |})
      as (_ & dm & Hd & _ & _); try reflexivity.
    exists dm.
    assert (E : Some dm = _dimension (filter c1 (ArgValue (JNum 3))))
      by (symmetry; exact Hd).
    vm_compute in E. injection E as ->.
    eexists. split; [exact Hd|]. split; reflexivity.
Defined.

(* ================================================================= *)
(** ** Render and redraw: further properties *)

Section LifecycleMore.
Context {V : Type} `{JsValue V}.
Implicit Types (c : Chart V) (a : string) (attrs : list string).

Lemma log_activateRenderlets_exact c h :
  _log (_activateRenderlets c h)
  = _log c ++ (if (0 <? _transitionDuration c)%Z && _svg c
               then [EvTransition h]
               else map EvRenderlet (_renderlets c) ++ [hookEvent h]).
Proof.
  unfold _activateRenderlets. destruct (_ && _).
  - apply log_emit.
  - rewrite log_emit, log_runAllRenderlets, <- app_assoc. reflexivity.
Qed.

(** X7: the trace of [redraw()]: preRedraw, the incremental-draw hook, the
    legend when one is attached, then every renderlet in registration
    order followed by postRedraw -- or, with a positive transition
    duration and an svg, nothing but the scheduled transition. *)
Theorem redraw_trace c :
  (redraw c).1 = Returned
  /\ _log (redraw c).2
     = _log c ++ [EvPreRedraw; EvDoRedraw]
       ++ (if _legend c then [EvLegendRender] else [])
       ++ (if (0 <? _transitionDuration c)%Z && _svg c
           then [EvTransition PostRedraw]
           else map EvRenderlet (_renderlets c) ++ [EvPostRedraw]).
Proof.
  split; [reflexivity|]. unfold redraw. cbn [snd].
  rewrite log_activateRenderlets_exact.
  change (_legend (emit (emit c EvPreRedraw) EvDoRedraw)) with (_legend c).
  destruct (_legend c); rewrite !log_emit, <- !app_assoc; reflexivity.
Qed.

Lemma checkAll_returned_iff c attrs :
  checkAll c attrs = Returned <->
  forall a, a ∈ attrs -> attributePresent c a = true.
Proof.
  induction attrs as [|a attrs IH]; simpl.
  - split; [intros _ a Ha; inversion Ha | reflexivity].
  - destruct (attributePresent c a) eqn:Ha.
    + rewrite check_present by exact Ha. rewrite IH. split.
      * intros Hall b Hb. apply elem_of_cons in Hb as [->|Hb]; auto.
      * intros Hall b Hb. apply Hall. apply elem_of_cons. auto.
    + rewrite check_missing by exact Ha. split; [discriminate|].
      intros Hall. rewrite Hall in Ha by (apply elem_of_cons; auto).
      discriminate Ha.
Qed.

Lemma render_returned c :
  (forall attrs, _mandatoryAttributes c = Some attrs ->
                 checkAll c attrs = Returned) ->
  (render c).1 = Returned.
Proof.
  intros Hall. unfold render.
  change (_mandatoryAttributes (emit c EvPreRender))
    with (_mandatoryAttributes c).
  destruct (_mandatoryAttributes c) as [attrs|]; [|reflexivity].
  rewrite checkAll_emit, (Hall attrs eq_refl). reflexivity.
Qed.

(** X8: [render()] returns exactly when every attribute of the mandatory
    list is a method with a truthy result; a list set to a falsy value, or
    an empty one, never makes it throw. *)
Theorem render_returns_iff c :
  (render c).1 = Returned <->
  forall attrs a, _mandatoryAttributes c = Some attrs -> a ∈ attrs ->
                  attributePresent c a = true.
Proof.
  unfold render.
  change (_mandatoryAttributes (emit c EvPreRender))
    with (_mandatoryAttributes c).
  destruct (_mandatoryAttributes c) as [attrs|].
  - rewrite checkAll_emit.
    destruct (checkAll c attrs) eqn:E.
    + cbn [fst]. split; [|reflexivity].
      intros _ attrs' a [= <-]. apply checkAll_returned_iff. exact E.
    + cbn [fst]. split; [discriminate|]. intros Hall.
      assert (E' : checkAll c attrs = Returned)
        by (apply checkAll_returned_iff; intros a Ha;
            apply (Hall attrs); auto).
      rewrite E' in E. discriminate E.
  - cbn [fst]. split; [|reflexivity]. intros _ attrs a Hn. discriminate Hn.
Qed.

(** X9: the trace of a [render()] that returns: preRender, the full-draw
    hook, the legend when one is attached, then every renderlet in
    registration order followed by postRender -- or, with a positive
    transition duration and an svg, nothing but the scheduled
    transition. *)
Theorem render_trace c :
  (render c).1 = Returned ->
  _log (render c).2
  = _log c ++ [EvPreRender; EvDoRender]
    ++ (if _legend c then [EvLegendRender] else [])
    ++ (if (0 <? _transitionDuration c)%Z && _svg c
        then [EvTransition PostRender]
        else map EvRenderlet (_renderlets c) ++ [EvPostRender]).
Proof.
  unfold render.
  destruct (match _mandatoryAttributes (emit c EvPreRender) with
            | Some attrs => checkAll (emit c EvPreRender) attrs
            | None => Returned
            end); cbn [fst snd]; [intros _ | discriminate].
  rewrite log_activateRenderlets_exact.
  change (_legend (emit (emit c EvPreRender) EvDoRender)) with (_legend c).
  destruct (_legend c); rewrite !log_emit, <- !app_assoc; reflexivity.
Qed.

(** X10: once a dimension and a group are set, a chart whose mandatory
    list is the default one renders, whatever else its state is. *)
Theorem render_after_dimension_and_group c (dm : Dimension V) (g : Group)
    (n : NameArg) (f : option Accessor) :
  _mandatoryAttributes c = Some ["dimension"; "group"] ->
  (render (dimension (group c g n f) dm)).1 = Returned.
Proof.
  intros Hm. apply render_returned. intros attrs Hattrs.
  assert (E : _mandatoryAttributes (dimension (group c g n f) dm)
              = _mandatoryAttributes c) by (destruct f; reflexivity).
  rewrite E, Hm in Hattrs. injection Hattrs as <-.
  apply checkAll_present.
  repeat constructor; unfold attributePresent, chartMethod; simpl;
    destruct f; reflexivity.
Qed.

(* ----------------------------------------------------------------- *)
(** *** The anchor name *)

(** X11: the anchor name.  For a selector string it is the selector with
    its first [#] removed, wherever that is, and later ones kept; for an
    element with an id it is the id; and it falls back to the chart id in
    decimal when there is no anchor, an empty selector, an element
    without id or a selection. *)
Theorem anchorName_cases c :
  (forall pre post,
      _anchor c = AnchorSelector (pre +:+ String "#" post) ->
      hashFree pre = true -> anchorName c = pre +:+ post)
  /\ (forall s, _anchor c = AnchorSelector s -> s <> "" ->
                hashFree s = true -> anchorName c = s)
  /\ (forall id, _anchor c = AnchorElement id -> id <> "" ->
                 anchorName c = id)
  /\ (_anchor c = AnchorUnset \/ _anchor c = AnchorSelection
      \/ _anchor c = AnchorElement "" \/ _anchor c = AnchorSelector "" ->
      anchorName c = pretty (chartID c)).
Proof.
  unfold anchorName. split; [|split; [|split]].
  - intros pre post -> Hf.
    assert (E : String.eqb (pre +:+ String "#" post) "" = false)
      by (destruct pre; reflexivity).
    rewrite E. apply dropFirstHash_app. exact Hf.
  - intros s -> Hne Hf.
    apply String.eqb_neq in Hne. rewrite Hne.
    apply dropFirstHash_free. exact Hf.
  - intros id -> Hne. apply String.eqb_neq in Hne. rewrite Hne. reflexivity.
  - intros [-> | [-> | [-> | ->]]]; reflexivity.
Qed.

End LifecycleMore.

Lemma render_trace_witness :
  let c : Chart jsval :=
    renderlet (renderlet (transitionDuration
                            (mandatoryAttributes plainChart None) 0) 4) 9 in
  _log (render c).2
  = [EvPreRender; EvDoRender; EvRenderlet 4; EvRenderlet 9; EvPostRender]
  /\ _log (render (svg (transitionDuration c 750) true)).2
     = [EvPreRender; EvDoRender; EvTransition PostRender].
Proof.
  intros c. split.
  - rewrite (render_trace c); reflexivity.
  - rewrite (render_trace (svg (transitionDuration c 750) true)); reflexivity.
Defined.

Lemma render_returns_iff_witness :
  (render (mandatoryAttributes plainChart (Some []))).1 = Returned
  /\ (render (mandatoryAttributes plainChart None)).1 = Returned.
Proof.
  split; apply render_returns_iff; intros attrs a Hattrs Ha.
  - injection Hattrs as <-. inversion Ha.
  - discriminate Hattrs.
Defined.

Lemma render_after_dimension_and_group_witness :
  (render plainChart).1 <> Returned
  /\ (render (dimension (group plainChart groupA (NameString "A") None)
                        someDimension)).1 = Returned.
Proof.
  split; [discriminate|].
  apply render_after_dimension_and_group. reflexivity.
Defined.

Lemma anchorName_cases_witness :
  anchorName (set_anchor plainChart (AnchorSelector "#chart")) = "chart"
  /\ anchorName (set_anchor plainChart (AnchorSelector "div#a#b")) = "diva#b"
  /\ anchorName (set_anchor plainChart (AnchorElement "")) = "1".
Proof.
  split; [|split].
  - destruct (anchorName_cases
                (set_anchor plainChart (AnchorSelector "#chart")))
      as (Hs & _). apply (Hs "" "chart"); reflexivity.
  - destruct (anchorName_cases
                (set_anchor plainChart (AnchorSelector "div#a#b")))
      as (Hs & _). apply (Hs "div" "a#b"); reflexivity.
  - destruct (anchorName_cases
                (set_anchor plainChart (AnchorElement "")))
      as (_ & _ & _ & Hf). rewrite Hf; [reflexivity|]. auto.
Defined.

(* ================================================================= *)
(** ** Ordering utility: further properties *)

Section OrderingMore.
Context {V : Type} `{JsValue V}.
Variable lib : (Datum -> Z) -> Sorter.

(** X12: after [ordering(o)], whatever sorter was cached before,
    [_computeOrderedGroups] on an array of two or more elements hands a
    copy, over its whole range, to the sorter made from [o]; the result is
    a new array at the end of the heap and the input array is as it
    was. *)
Theorem computeOrderedGroups_after_ordering
    (c : Chart V) (o : Datum -> Z) (h : Heap) (data : nat)
    (contents : list Datum) :
  h !! data = Some contents ->
  (1 < length contents)%nat ->
  _computeOrderedGroups lib (ordering lib c o) h data
  = Some (length h, h ++ [lib o contents 0%nat (length contents)],
          ordering lib c o)
  /\ (h ++ [lib o contents 0%nat (length contents)]) !! data = Some contents.
Proof.
  intros Hdata Hlen.
  assert (Hlt : (data < length h)%nat) by (eapply lookup_lt_Some; eauto).
  split; [|rewrite lookup_app_l by exact Hlt; exact Hdata].
  unfold _computeOrderedGroups. rewrite Hdata.
  assert (E : (length contents <=? 1)%nat = false)
    by (apply Nat.leb_gt; exact Hlen).
  rewrite E. cbn [ordering set_ordering _orderSort _ordering].
  f_equal. f_equal. f_equal.
  replace (length h) with (length h + 0)%nat at 1 by lia.
  rewrite insert_app_r. reflexivity.
Qed.

End OrderingMore.

Lemma computeOrderedGroups_after_ordering_witness :
  let k3 := {| key := 3; value := 30 |} in
  let k1 := {| key := 1; value := 10 |} in
  let byValueDescending := fun d => (- value d)%Z in
  exists c',
    _computeOrderedGroups quicksort_by
      (ordering quicksort_by plainChart byValueDescending) [[k1; k3]] 0%nat
    = Some (1%nat, [[k1; k3]; [k3; k1]], c').
Proof.
  intros k3 k1 o.
  destruct (computeOrderedGroups_after_ordering quicksort_by plainChart o
              [[k1; k3]] 0%nat [k1; k3]) as [E _];
    [reflexivity | simpl; lia |].
  eexists. rewrite E. reflexivity.
Defined.

(* ================================================================= *)
(** ** Stack mixin: further properties *)

Lemma filter_all_false {A} (p : A -> bool) (l : list A) :
  (forall x, p x = false) -> List.filter p l = [].
Proof.
  intros Hp. induction l as [|x l IH]; simpl; [reflexivity|].
  rewrite Hp. exact IH.
Qed.

Lemma filter_sublist {A} (p : A -> bool) (l : list A) :
  sublist (List.filter p l) l.
Proof.
  induction l as [|x l IH]; simpl; [constructor|].
  destruct (p x); constructor; exact IH.
Qed.

Lemma map_imap {A B C} (g : B -> C) (f : nat -> A -> B) (l : list A) :
  map g (imap f l) = imap (fun i x => g (f i x)) l.
Proof.
  revert f. induction l as [|x l IH]; intros f; simpl; [reflexivity|].
  rewrite IH. reflexivity.
Qed.

Lemma imap_plain {A B} (g : A -> B) (l : list A) :
  imap (fun _ x => g x) l = map g l.
Proof.
  induction l as [|x l IH]; simpl; [reflexivity|].
  unfold compose. rewrite IH. reflexivity.
Qed.

Lemma map_insert_same {A B} (g : A -> B) (l : list A) i x y :
  l !! i = Some x -> g y = g x -> map g (<[i:=y]> l) = map g l.
Proof.
  revert i. induction l as [|z l IH]; intros [|i]; simpl; try discriminate.
  - intros [= ->] ->. reflexivity.
  - intros Hi Hg. rewrite IH by assumption. reflexivity.
Qed.

Lemma foldl_none_step {A B} (step : option A -> B -> option A) (l : list B) :
  (forall b, step None b = None) -> foldl step None l = None.
Proof.
  intros Hs. induction l as [|b l IH]; simpl; [reflexivity|].
  rewrite Hs. exact IH.
Qed.

Section NameFacts.

Lemma pretty_N_go_length (x : N) (s : string) :
  (String.length s <= String.length (pretty_N_go x s))%nat.
Proof.
  revert s. induction (N.lt_wf_0 x) as [x _ IH]; intros s.
  assert (Hx : (x = 0 \/ 0 < x)%N) by lia. destruct Hx as [->|Hx].
  - rewrite pretty_N_go_0. reflexivity.
  - rewrite pretty_N_go_step by exact Hx.
    etransitivity; [|apply IH; apply N.div_lt; [exact Hx | reflexivity]].
    simpl. lia.
Qed.

(** The decimal form of an index is never the empty string. *)
Lemma pretty_nat_nonempty (n : nat) : pretty n <> "".
Proof.
  unfold pretty, pretty_nat, pretty, pretty_N.
  destruct (decide (N.of_nat n = 0%N)) as [_|Hn]; [discriminate|].
  assert (Hpos : (0 < N.of_nat n)%N) by lia.
  rewrite pretty_N_go_step by exact Hpos. intros E.
  pose proof (pretty_N_go_length (N.of_nat n `div` 10)
                (String (pretty_N_char (N.of_nat n `mod` 10)) "")) as Hl.
  rewrite E in Hl. simpl in Hl. lia.
Qed.

Lemma resolvedName_nonempty name idx : resolvedName name idx <> "".
Proof.
  unfold resolvedName. destruct name as [s|]; [|apply pretty_nat_nonempty].
  destruct (String.eqb s "") eqn:E; [apply pretty_nat_nonempty|].
  apply String.eqb_neq. exact E.
Qed.

Lemma resolvedName_resolved name idx idx' :
  resolvedName (Some (resolvedName name idx)) idx' = resolvedName name idx.
Proof.
  unfold resolvedName at 1.
  assert (E : String.eqb (resolvedName name idx) "" = false)
    by (apply String.eqb_neq; apply resolvedName_nonempty).
  rewrite E. reflexivity.
Qed.

End NameFacts.

Section PrepareMore.
Context {V : Type} `{JsValue V}.
Implicit Types (c : Chart V) (layer : Layer).

(** X13: a prepared layer has one point per record of its group, in the
    group's order and carrying the record; its [domainValues] are a
    sub-sequence of its [values], which are a sub-sequence of those
    points; every point is labelled with the layer's resolved name and has
    no baseline yet. *)
Theorem prepareValues_points c layer (layerIdx : nat) :
  let prepared := _prepareValues c layer layerIdx in
  let points := allValues c layer layerIdx in
  map p_data points = all (l_group layer)
  /\ sublist (l_domainValues prepared) (l_values prepared)
  /\ sublist (l_values prepared) points
  /\ Forall (fun p => p_layer p = resolvedName (l_name layer) layerIdx
                      /\ p_y0 p = None /\ p_y1 p = None) points.
Proof.
  intros prepared points. subst prepared points.
  unfold _prepareValues. cbn [l_domainValues l_values].
  split; [|split; [|split]].
  - unfold allValues. rewrite map_imap. cbn [p_data].
    rewrite imap_plain. apply map_id.
  - destruct (_evadeDomainFilter c); [apply filter_sublist | reflexivity].
  - destruct (_evadeDomainFilter c); [reflexivity | apply filter_sublist].
  - unfold allValues. apply Forall_forall. intros p Hp.
    apply list_elem_of_lookup in Hp as [i Hp].
    rewrite list_lookup_imap in Hp.
    destruct (all (l_group layer) !! i) as [d|]; [|discriminate Hp].
    injection Hp as <-. auto.
Qed.

(** X14: under a bound scale that is neither ordinal nor elastic, an
    empty domain, or one whose first element lies above its last, leaves a
    prepared layer without [domainValues] -- and without [values] unless
    the domain filter is evaded. *)
Theorem domain_filter_keeps_nothing c layer (layerIdx : nat) (x : Scale) :
  _x c = Some x -> _isOrdinal c = false -> _elasticX c = false ->
  (domain x = []
   \/ exists lo hi, head (domain x) = Some lo /\ last (domain x) = Some hi
                    /\ (hi < lo)%Z) ->
  l_domainValues (_prepareValues c layer layerIdx) = []
  /\ (_evadeDomainFilter c = false ->
      l_values (_prepareValues c layer layerIdx) = []).
Proof.
  intros Hx Ho He Hdom.
  assert (E : l_domainValues (_prepareValues c layer layerIdx) = []).
  { unfold _prepareValues. cbn [l_domainValues].
    apply filter_all_false. intros p.
    unfold _domainFilter. rewrite Hx, Ho, He.
    destruct Hdom as [-> | (lo & hi & Hlo & Hhi & Hlt)]; [reflexivity|].
    rewrite head_lookup in Hlo. rewrite last_lookup in Hhi.
    rewrite Nat.sub_1_r, Hlo, Hhi. simpl.
    destruct (lo <=? p_x p)%Z eqn:E1; [|reflexivity]. simpl.
    apply Z.leb_le in E1. apply Z.leb_gt. lia. }
  split; [exact E|]. intros Hev. unfold _prepareValues in *.
  cbn [l_values l_domainValues] in *. rewrite Hev. exact E.
Qed.

(** X15: the name a layer gets when it is prepared is never empty -- its
    own name if it has a non-empty one, its index in decimal otherwise --
    and it stays: preparing the layer again, by any chart and at any
    index, keeps that name. *)
Theorem prepared_name_persists c layer (layerIdx : nat) :
  let prepared := _prepareValues c layer layerIdx in
  exists name,
    l_name prepared = Some name /\ name <> ""
    /\ (forall s, l_name layer = Some s -> s <> "" -> name = s)
    /\ (l_name layer = None \/ l_name layer = Some "" ->
        name = pretty layerIdx)
    /\ forall (c2 : Chart V) (idx2 : nat),
         l_name (_prepareValues c2 prepared idx2) = Some name.
Proof.
  intros prepared. exists (resolvedName (l_name layer) layerIdx).
  split; [reflexivity|]. split; [apply resolvedName_nonempty|].
  split; [|split].
  - intros s -> Hs. unfold resolvedName.
    apply String.eqb_neq in Hs. rewrite Hs. reflexivity.
  - intros [-> | ->]; reflexivity.
  - intros c2 idx2. subst prepared. unfold _prepareValues.
    cbn [l_name]. rewrite resolvedName_resolved. reflexivity.
Qed.

(** [stack(g, f)] with a function as its second and last argument takes
    it as the layer's accessor: the new layer, last in the stack, has no
    name of its own, and its points take their [y] from [f] and their
    label from the layer's index. *)
Lemma stack_function_second_argument c (g : Group) (f : Accessor)
    (layerIdx : nat) :
  exists layer,
    _stack (stack c g (NameFunction f) None) = _stack c ++ [layer]
    /\ l_name layer = None
    /\ allValues (stack c g (NameFunction f) None) layer layerIdx
       = imap (fun i d =>
                 {| p_x := _keyAccessor c d i; p_y := Some (f d i);
                    p_data := d; p_layer := pretty layerIdx;
                    p_hidden := None; p_y0 := None; p_y1 := None |})
              (all g).
Proof.
  eexists. split; [reflexivity|]. split; reflexivity.
Qed.

End PrepareMore.

Lemma domain_filter_keeps_nothing_witness :
  let c := set_x plainChart (Some {| domain := [5; 2]%Z |}) false false in
  let layer := {| l_group := groupA; l_name := None; l_accessor := None;
                  l_hidden := None; l_values := []; l_domainValues := [] |} in
  l_values (_prepareValues c layer 0) = []
  /\ length (l_values (_prepareValues (evadeDomainFilter c true) layer 0))
     = 2%nat.
Proof.
  intros c layer. split; [|reflexivity].
  apply (domain_filter_keeps_nothing c layer 0%nat {| domain := [5; 2]%Z |});
    try reflexivity.
  right. exists 5%Z, 2%Z. repeat split.
Defined.

Section DataMore.
Context {V : Type} `{JsValue V}.
Implicit Types (c : Chart V) (layer : Layer) (ls st : list Layer).

Lemma data_inv c ls c' :
  data c = Some (ls, c') ->
  (visibleLayers c = [] /\ ls = [] /\ c' = c)
  \/ (visibleLayers c <> []
      /\ c' = set_stack c (putBack (_stack c) ls)
      /\ exists v4result, writeBack c (preparedLayers c) v4result 0 = Some ls).
Proof.
  unfold data. fold (visibleLayers c).
  destruct (visibleLayers c) as [|l0 vs] eqn:Hv.
  - simpl. intros [= <- <-]. left. auto.
  - cbn [length Nat.eqb]. fold (preparedLayers c).
    unfold preparedLayers. rewrite Hv.
    destruct (head _) as [first|]; [|discriminate].
    destruct (mapM id _) as [v4data|]; [|discriminate].
    destruct (writeBack c _ _ 0) as [ls'|] eqn:Hw; [|discriminate].
    intros [= <- <-]. right. split; [discriminate|].
    split; [reflexivity|]. eexists. exact Hw.
Qed.

Lemma writeBack_keeps c ls v4result i ls' :
  writeBack c ls v4result i = Some ls' ->
  map layerHead ls' = map layerHead ls /\ map l_name ls' = map l_name ls.
Proof.
  revert ls i. induction v4result as [|series rest IH]; intros ls i; simpl.
  - intros [= <-]. auto.
  - destruct series as [|ys series]; [apply IH|].
    destruct (ls !! i) as [layer|] eqn:Hi; [|discriminate].
    destruct (writeSeries (l_values layer) (ys :: series) 0) as [values|];
      [|discriminate].
    intros Hw. apply IH in Hw as [H1 H2].
    rewrite H1, H2. split; apply (map_insert_same _ _ _ layer); auto.
Qed.

Lemma preparedLayers_keeps c :
  map layerHead (preparedLayers c) = map layerHead (visibleLayers c)
  /\ map l_name (preparedLayers c)
     = imap (fun i l => Some (resolvedName (l_name l) i)) (visibleLayers c).
Proof.
  unfold preparedLayers. rewrite !map_imap. split; [|reflexivity].
  exact (imap_plain layerHead (visibleLayers c)).
Qed.

Lemma visible_by_head ls ls2 :
  map layerHead ls = map layerHead ls2 ->
  Forall (fun l => _visibility l = true) ls2 ->
  Forall (fun l => _visibility l = true) ls.
Proof.
  revert ls2. induction ls as [|l ls IH]; intros [|l2 ls2]; simpl;
    try discriminate; [constructor|].
  intros [= Hg Ha Hh Hrest] Hall. inversion Hall as [|? ? Hv Hall']; subst.
  constructor; [|eapply IH; eauto].
  unfold _visibility in *. rewrite Hh. exact Hv.
Qed.

Lemma visibleLayers_visible c :
  Forall (fun l => _visibility l = true) (visibleLayers c).
Proof.
  apply Forall_forall. intros l Hl. apply list_elem_of_In in Hl.
  apply filter_In in Hl. apply Hl.
Qed.

Lemma putBack_spec st ls :
  Forall (fun l => _visibility l = true) ls ->
  length ls = length (List.filter _visibility st) ->
  List.filter _visibility (putBack st ls) = ls
  /\ List.filter (fun l => negb (_visibility l)) (putBack st ls)
     = List.filter (fun l => negb (_visibility l)) st
  /\ length (putBack st ls) = length st.
Proof.
  revert ls. induction st as [|l st IH]; intros ls Hvis Hlen; simpl in *.
  - destruct ls; [auto | discriminate].
  - destruct (_visibility l) eqn:Hl; simpl in *.
    + destruct ls as [|l' ls]; [discriminate|].
      inversion Hvis as [|? ? Hl' Hvis']; subst.
      injection Hlen as Hlen.
      destruct (IH ls Hvis' Hlen) as (E1 & E2 & E3).
      simpl. rewrite Hl'. simpl. rewrite E1, E2, E3. auto.
    + destruct (IH ls Hvis Hlen) as (E1 & E2 & E3).
      rewrite Hl. simpl. rewrite E1, E2, E3. auto.
Qed.

(** X16: with no layer stacked, or every layer hidden, [data()] returns
    the empty list and touches nothing. *)
Theorem data_no_visible_layers c :
  Forall (fun l => l_hidden l = Some true) (_stack c) ->
  data c = Some ([], c).
Proof.
  intros Hall. unfold data.
  assert (E : List.filter _visibility (_stack c) = []).
  { induction Hall as [|l st Hl _ IH]; simpl; [reflexivity|].
    unfold _visibility at 1. rewrite Hl. exact IH. }
  rewrite E. reflexivity.
Qed.

Lemma data_heads c ls c' :
  data c = Some (ls, c') ->
  map layerHead ls = map layerHead (visibleLayers c)
  /\ map l_name ls
     = imap (fun i l => Some (resolvedName (l_name l) i)) (visibleLayers c).
Proof.
  intros Hd. apply data_inv in Hd as [(Hv & -> & _) | (_ & _ & v4 & Hw)].
  - rewrite Hv. auto.
  - apply writeBack_keeps in Hw as [H1 H2].
    destruct (preparedLayers_keeps c) as [H3 H4].
    rewrite H1, H2, H3, H4. auto.
Qed.

Lemma putBack_nil st : putBack st [] = st.
Proof.
  induction st as [|l st IH]; simpl; [reflexivity|].
  rewrite IH. destruct (_visibility l); reflexivity.
Qed.

Lemma data_putBack c ls c' :
  data c = Some (ls, c') ->
  c' = set_stack c (putBack (_stack c) ls)
  /\ Forall (fun l => _visibility l = true) ls
  /\ length ls = length (List.filter _visibility (_stack c)).
Proof.
  intros Hd. destruct (data_heads c ls c' Hd) as [H1 _].
  split; [|split].
  - apply data_inv in Hd as [(_ & -> & ->) | (_ & -> & _)]; [|reflexivity].
    rewrite putBack_nil. destruct c; reflexivity.
  - eapply visible_by_head; [exact H1 | apply visibleLayers_visible].
  - fold (visibleLayers c).
    rewrite <- (length_map layerHead ls), H1, length_map. reflexivity.
Qed.

(** X17: what [data()] returns, when it returns, are the visible layers
    of the stack, in stack order: same groups, accessors and hidden
    flags, none of them hidden, each named by its own non-empty name or
    else by its index among the visible layers. *)
Theorem data_returns_visible_layers c ls c' :
  data c = Some (ls, c') ->
  map layerHead ls = map layerHead (visibleLayers c)
  /\ map l_name ls
     = imap (fun i l => Some (resolvedName (l_name l) i)) (visibleLayers c)
  /\ Forall (fun l => _visibility l = true) ls.
Proof.
  intros Hd. destruct (data_heads c ls c' Hd) as [H1 H2].
  split; [exact H1|]. split; [exact H2|].
  eapply visible_by_head; [exact H1 | apply visibleLayers_visible].
Qed.

(** X18: the layers [data()] returns are the layer objects of the stack:
    afterwards the visible layers of the stack are exactly the returned
    ones, the hidden layers are as they were, no layer was added or
    removed, and nothing else of the chart has changed. *)
Theorem data_updates_stack_in_place c ls c' :
  data c = Some (ls, c') ->
  visibleLayers c' = ls
  /\ List.filter (fun l => negb (_visibility l)) (_stack c')
     = List.filter (fun l => negb (_visibility l)) (_stack c)
  /\ length (_stack c') = length (_stack c)
  /\ c' = set_stack c (_stack c').
Proof.
  intros Hd. destruct (data_putBack c ls c' Hd) as (-> & Hvis & Hlen).
  destruct (putBack_spec (_stack c) ls Hvis Hlen) as (E1 & E2 & E3).
  unfold visibleLayers. cbn [_stack set_stack].
  rewrite E1, E2, E3. auto.
Qed.

Lemma column_missing (layers : list Layer) (i : nat) (v : Point) layer :
  layer ∈ layers -> l_values layer !! i = None ->
  column layers i v = None.
Proof.
  unfold column. generalize (Some ({["x" := Some (p_x v)]} : Column)).
  intros acc Hin Hmiss. revert acc.
  induction Hin as [layer rest | other layer rest Hin IH]; intros acc; simpl.
  - rewrite Hmiss.
    replace (match acc with Some _ => None | None => None end)
      with (@None Column) by (destruct acc; reflexivity).
    apply foldl_none_step. reflexivity.
  - apply IH. exact Hmiss.
Qed.

(** X19: when some visible layer has, once prepared, fewer values than
    the first visible layer, [data()] ends in a [TypeError]: the re-keying
    reads [y] from a point that is not there. *)
Theorem data_type_error_on_short_layer c first layer (j : nat) :
  preparedLayers c !! 0%nat = Some first ->
  preparedLayers c !! j = Some layer ->
  (length (l_values layer) < length (l_values first))%nat ->
  data c = None.
Proof.
  intros Hfirst Hj Hlen. unfold data. fold (visibleLayers c).
  destruct (visibleLayers c) as [|l0 vs] eqn:Hv.
  { unfold preparedLayers in Hfirst. rewrite Hv in Hfirst.
    discriminate Hfirst. }
  cbn [length Nat.eqb].
  assert (Hp : imap (fun i l => _prepareValues c l i) (l0 :: vs)
               = preparedLayers c)
    by (unfold preparedLayers; rewrite Hv; reflexivity).
  rewrite Hp, head_lookup, Hfirst.
  assert (Hnone : mapM id (imap (column (preparedLayers c))
                                (l_values first)) = None).
  { apply mapM_None_2. apply Exists_exists.
    destruct (lookup_lt_is_Some_2 (l_values first)
                (length (l_values layer)) Hlen) as [v Hv'].
    exists (column (preparedLayers c) (length (l_values layer)) v). split.
    - apply list_elem_of_lookup. exists (length (l_values layer)).
      rewrite list_lookup_imap, Hv'. reflexivity.
    - apply (column_missing _ _ _ layer).
      + apply list_elem_of_lookup. exists j. exact Hj.
      + apply lookup_ge_None. lia. }
  rewrite Hnone. reflexivity.
Qed.

End DataMore.

Lemma data_no_visible_layers_witness :
  data (hideStack (hideStack twoLayerChart "A") "B")
  = Some ([], hideStack (hideStack twoLayerChart "A") "B").
Proof.
  apply data_no_visible_layers. repeat constructor.
Defined.

(** X17 and X18 after [hideStack('B')] on the two-layer chart: [data()]
    returns A alone, stacked from zero, and B is still in the stack. *)
Lemma data_returns_visible_layers_witness :
  exists ls c',
    data (hideStack twoLayerChart "B") = Some (ls, c')
    /\ map l_name ls = [Some "A"]
    /\ map baselines ls = [[(1, Some 0, Some 3); (2, Some 0, Some 5)]]%Z.
Proof.
  destruct (data (hideStack twoLayerChart "B")) as [[ls c']|] eqn:E;
    [|vm_compute in E; discriminate E].
  exists ls, c'. split; [reflexivity|].
  destruct (data_returns_visible_layers _ _ _ E) as (_ & Hn & _).
  split; [rewrite Hn; reflexivity|].
  assert (E' : Some (ls, c') = data (hideStack twoLayerChart "B"))
    by (symmetry; exact E).
  vm_compute in E'. injection E' as -> _. reflexivity.
Defined.

Lemma data_updates_stack_in_place_witness :
  exists ls c',
    data (hideStack twoLayerChart "B") = Some (ls, c')
    /\ visibleLayers c' = ls
    /\ map l_name (_stack c') = [Some "A"; Some "B"].
Proof.
  destruct (data (hideStack twoLayerChart "B")) as [[ls c']|] eqn:E;
    [|vm_compute in E; discriminate E].
  exists ls, c'. split; [reflexivity|].
  destruct (data_updates_stack_in_place _ _ _ E) as (Hv & _).
  split; [exact Hv|].
  assert (E' : Some (ls, c') = data (hideStack twoLayerChart "B"))
    by (symmetry; exact E).
  vm_compute in E'. injection E' as _ ->. reflexivity.
Defined.

(** X19 on a second layer with one record under a first with two. *)
Lemma data_type_error_on_short_layer_witness :
  data (stack (group plainChart groupA (NameString "A") None)
              groupShort (NameString "S") None) = None.
Proof.
  eapply (data_type_error_on_short_layer _ _ _ 1%nat);
    [reflexivity | reflexivity | simpl; lia].
Defined.

Section TitleMore.
Context {V : Type} `{JsValue V} `{FunctionObjects}.
Implicit Types (c : Chart V).

Lemma title_own c (s : string) (t : TitleFn) :
  s <> "" -> _titles c !! s = Some t ->
  title c (TitleString s) None = (TitleIs t, c).
Proof.
  intros Hs Ht. apply String.eqb_neq in Hs. unfold title, readTitle.
  rewrite Hs, Ht. reflexivity.
Qed.

Lemma title_fallback c (s : string) :
  s <> "" -> _titles c !! s = None -> _titles c !! "__proto__" = None ->
  s ∉ objectPrototypeNames ->
  title c (TitleString s) None = (TitleIs (_title c), c).
Proof.
  intros Hs Ht Hproto Hplain. apply String.eqb_neq in Hs.
  unfold title, readTitle.
  rewrite Hs, Ht, Hproto, (bool_decide_eq_false_2 _ Hplain). reflexivity.
Qed.

Lemma title_set c (s : string) (fn : TitleFn) :
  s <> "" -> _groupName c <> NameString s ->
  _titles c !! "__proto__" = None ->
  title c (TitleString s) (Some fn)
  = (Chained, set_titles c (<[s := fn]> (_titles c))).
Proof.
  intros Hs Hg Hproto. apply String.eqb_neq in Hs. unfold title. rewrite Hs.
  assert (Eg : isGroupName c s = false).
  { unfold isGroupName. destruct (_groupName c) as [|s'|]; try reflexivity.
    apply String.eqb_neq. intros ->. apply Hg. reflexivity. }
  assert (Ew : canWriteTitle (_titles c) s = true).
  { unfold canWriteTitle. rewrite Hproto.
    destruct (String.eqb s "__proto__"); [reflexivity|].
    destruct (_titles c !! s); reflexivity. }
  rewrite Eg, Ew. reflexivity.
Qed.

(** X20: per-stack titles are kept apart by stack name.  On a title table
    whose prototype was never replaced, and for two different stack names
    other than [__proto__] and the group's name: a title set for one
    stack is what [title] returns for it, it is replaced when set again,
    and neither a title set for the other stack nor the chart-wide title
    is affected. *)
Theorem title_stacks_independent c (s1 s2 : string) (f1 f2 f3 : TitleFn) :
  s1 <> "" -> s2 <> "" -> s1 <> s2 ->
  s1 <> "__proto__" -> s2 <> "__proto__" ->
  _titles c !! "__proto__" = None ->
  _groupName c <> NameString s1 -> _groupName c <> NameString s2 ->
  let r1 := title c (TitleString s1) (Some f1) in
  let r2 := title r1.2 (TitleString s2) (Some f2) in
  let r3 := title r2.2 (TitleString s1) (Some f3) in
  r1.1 = Chained /\ r2.1 = Chained /\ r3.1 = Chained
  /\ (title r2.2 (TitleString s1) None).1 = TitleIs f1
  /\ (title r2.2 (TitleString s2) None).1 = TitleIs f2
  /\ (title r3.2 (TitleString s1) None).1 = TitleIs f3
  /\ (title r3.2 (TitleString s2) None).1 = TitleIs f2
  /\ _title r3.2 = _title c.
Proof.
  intros Hs1 Hs2 Hne Hp1 Hp2 Hproto Hg1 Hg2 r1 r2 r3. subst r1 r2 r3.
  rewrite (title_set c s1 f1) by assumption. cbn [fst snd].
  set (c1 := set_titles c (<[s1 := f1]> (_titles c))).
  assert (Hproto1 : _titles c1 !! "__proto__" = None).
  { subst c1. cbn [_titles set_titles].
    rewrite lookup_insert_ne by exact Hp1. exact Hproto. }
  rewrite (title_set c1 s2 f2) by assumption. cbn [fst snd].
  set (c2 := set_titles c1 (<[s2 := f2]> (_titles c1))).
  assert (Hproto2 : _titles c2 !! "__proto__" = None).
  { subst c2. cbn [_titles set_titles].
    rewrite lookup_insert_ne by exact Hp2. exact Hproto1. }
  rewrite (title_set c2 s1 f3) by assumption. cbn [fst snd].
  set (c3 := set_titles c2 (<[s1 := f3]> (_titles c2))).
  assert (E21 : _titles c2 !! s1 = Some f1).
  { subst c2 c1. cbn [_titles set_titles].
    rewrite lookup_insert_ne by congruence. apply lookup_insert_eq. }
  assert (E22 : _titles c2 !! s2 = Some f2).
  { subst c2. cbn [_titles set_titles]. apply lookup_insert_eq. }
  assert (E31 : _titles c3 !! s1 = Some f3).
  { subst c3. cbn [_titles set_titles]. apply lookup_insert_eq. }
  assert (E32 : _titles c3 !! s2 = Some f2).
  { subst c3. cbn [_titles set_titles].
    rewrite lookup_insert_ne by exact Hne. exact E22. }
  rewrite (title_own c2 s1 f1), (title_own c2 s2 f2),
    (title_own c3 s1 f3), (title_own c3 s2 f2) by assumption.
  repeat split.
Qed.

(** X21: setting the group forgets every per-stack title, also a
    replaced prototype of the title table: afterwards [title(stackName)]
    answers the chart-wide title function, which the group setter leaves
    alone, for every stack name that is not the name of a property every
    object inherits. *)
Theorem group_forgets_titles c (g : Group) (n : NameArg)
    (f : option Accessor) (stackName : string) :
  stackName <> "" ->
  stackName ∉ objectPrototypeNames ->
  (title (group c g n f) (TitleString stackName) None).1
  = TitleIs (_title c).
Proof.
  intros Hs Hplain.
  assert (Et : _titles (group c g n f) = ∅) by (destruct f; reflexivity).
  rewrite title_fallback;
    [| exact Hs | rewrite Et; apply lookup_empty
     | rewrite Et; apply lookup_empty | exact Hplain].
  cbn [fst]. destruct f; reflexivity.
Qed.

End TitleMore.

Lemma title_stacks_independent_witness :
  let fa := CustomTitle (fun d => "a") in
  let fb := CustomTitle (fun d => "b") in
  let c := (title (title twoLayerChart (TitleString "B") (Some fa)).2
                  (TitleString "C") (Some fb)).2 in
  (title c (TitleString "B") None).1 = TitleIs fa
  /\ (title c (TitleString "C") None).1 = TitleIs fb.
Proof.
  intros fa fb c.
  destruct (title_stacks_independent twoLayerChart "B" "C" fa fb fa)
    as (_ & _ & _ & H1 & H2 & _); try discriminate; try reflexivity.
  split; [exact H1 | exact H2].
Defined.

Lemma group_forgets_titles_witness :
  let fa := CustomTitle (fun d => "a") in
  let c := (title (title twoLayerChart (TitleString "B") (Some fa)).2
                  (TitleString "__proto__") (Some fa)).2 in
  (title c (TitleString "B") None).1 = TitleIs fa
  /\ (title c (TitleString "length") None).1 = InheritedValue "length"
  /\ (title (group c groupB (NameString "G") None) (TitleString "B") None).1
     = TitleIs DefaultTitle
  /\ (title (group c groupB (NameString "G") None)
            (TitleString "length") None).1
     = TitleIs DefaultTitle.
Proof.
  intros fa c. split; [reflexivity|]. split; [reflexivity|]. split.
  - apply (group_forgets_titles c groupB (NameString "G") None "B");
      [discriminate | apply plain_name; reflexivity].
  - apply (group_forgets_titles c groupB (NameString "G") None "length");
      [discriminate | apply plain_name; reflexivity].
Defined.

Section HideMore.
Context {V : Type} `{JsValue V}.
Implicit Types (c : Chart V) (st : list Layer) (n : string).

Lemma setHiddenByName_spec st n b :
  match List.find (fun l => bool_decide (l_name l = Some n)) st with
  | None => setHiddenByName st n b = st
  | Some l =>
      l_name l = Some n
      /\ exists i,
           st !! i = Some l
           /\ (forall j l', (j < i)%nat -> st !! j = Some l' ->
                            l_name l' <> Some n)
           /\ setHiddenByName st n b = <[i := withHidden l b]> st
  end.
Proof.
  induction st as [|l st IH]; simpl; [reflexivity|].
  destruct (bool_decide (l_name l = Some n)) eqn:E.
  - apply bool_decide_eq_true in E. split; [exact E|].
    exists 0%nat. split; [reflexivity|]. split; [intros; lia | reflexivity].
  - apply bool_decide_eq_false in E.
    destruct (List.find _ st) as [l0|].
    + destruct IH as (Hn & i & Hi & Hfirst & Hset). split; [exact Hn|].
      exists (S i). split; [exact Hi|]. split.
      * intros [|j] l' Hj Hl'; simpl in Hl'.
        -- injection Hl' as <-. exact E.
        -- apply (Hfirst j); [lia | exact Hl'].
      * simpl. rewrite Hset. reflexivity.
    + rewrite IH. reflexivity.
Qed.

(** X22: [hideStack(n)] and [showStack(n)] set the hidden flag of the
    first layer named [n] and of no other layer, whatever else carries
    that name; a name no layer has leaves the chart as it is. *)
Theorem hideStack_first_named c n :
  (_findLayerByName c n = None -> hideStack c n = c /\ showStack c n = c)
  /\ (forall l, _findLayerByName c n = Some l ->
        exists i,
          _stack c !! i = Some l
          /\ l_name l = Some n
          /\ (forall j l', (j < i)%nat -> _stack c !! j = Some l' ->
                           l_name l' <> Some n)
          /\ _stack (hideStack c n) = <[i := withHidden l true]> (_stack c)
          /\ _stack (showStack c n) = <[i := withHidden l false]> (_stack c)).
Proof.
  unfold _findLayerByName, hideStack, showStack. split.
  - intros Hf.
    pose proof (setHiddenByName_spec (_stack c) n true) as Ht.
    pose proof (setHiddenByName_spec (_stack c) n false) as Hf'.
    rewrite Hf in Ht, Hf'. rewrite Ht, Hf'. destruct c; auto.
  - intros l Hf.
    pose proof (setHiddenByName_spec (_stack c) n true) as Ht.
    pose proof (setHiddenByName_spec (_stack c) n false) as Hf'.
    rewrite Hf in Ht, Hf'.
    destruct Ht as (Hn & i & Hi & Hfirst & Ht).
    destruct Hf' as (_ & i' & Hi' & Hfirst' & Hf').
    assert (i' = i).
    { destruct (Nat.lt_trichotomy i' i) as [Hlt|[Heq|Hgt]]; [|exact Heq|].
      - exfalso. apply (Hfirst i' l Hlt Hi'). exact Hn.
      - exfalso. apply (Hfirst' i l Hgt Hi). exact Hn. }
    subst i'. exists i. cbn [_stack set_stack]. auto.
Qed.

Lemma toggledStack_other l st n :
  l_name l <> Some n -> toggledStack (l :: st) n = l :: toggledStack st n.
Proof.
  intros Hn. pose proof (bool_decide_eq_false_2 _ Hn) as Hb.
  unfold toggledStack. simpl. rewrite Hb.
  destruct (match List.find _ st with
            | Some layer => l_hidden layer
            | None => Some false
            end) as [[|]|]; reflexivity.
Qed.

Lemma toggledStack_named l st n :
  l_name l = Some n ->
  toggledStack (l :: st) n
  = withHidden l (negb match l_hidden l with Some true => true | _ => false end)
    :: st.
Proof.
  intros Hn. pose proof (bool_decide_eq_true_2 _ Hn) as Hb.
  unfold toggledStack. simpl. rewrite Hb.
  destruct (l_hidden l) as [[|]|]; reflexivity.
Qed.

Lemma toggledStack_twice st n :
  map _visibility (toggledStack (toggledStack st n) n) = map _visibility st.
Proof.
  induction st as [|l st IH]; [reflexivity|].
  destruct (decide (l_name l = Some n)) as [Hn|Hn].
  - rewrite (toggledStack_named l st n Hn).
    rewrite toggledStack_named by exact Hn.
    unfold _visibility. simpl.
    destruct (l_hidden l) as [[|]|]; reflexivity.
  - rewrite (toggledStack_other l st n Hn).
    rewrite toggledStack_other by exact Hn.
    simpl. rewrite IH. reflexivity.
Qed.

Lemma legendToggle_stack c n :
  _hidableStacks c = true ->
  _stack (legendToggle c n).1 = toggledStack (_stack c) n
  /\ _hidableStacks (legendToggle c n).1 = true.
Proof.
  intros Hh. unfold legendToggle, toggledStack, isLegendableHidden,
    _findLayerByName. rewrite Hh. cbn [fst].
  destruct (match List.find _ (_stack c) with
            | Some layer => l_hidden layer
            | None => Some false
            end) as [[|]|]; split; first [reflexivity | exact Hh].
Qed.

(** X23: [legendToggle] does nothing, and asks for no rendering, unless
    stacks are hidable; when they are, it asks the chart group to render,
    and toggling the same legend entry twice leaves every layer as visible
    or hidden as it was. *)
Theorem legendToggle_twice c n :
  (_hidableStacks c = false -> legendToggle c n = (c, false))
  /\ (_hidableStacks c = true ->
      (legendToggle c n).2 = true
      /\ map _visibility
           (_stack (legendToggle (legendToggle c n).1 n).1)
         = map _visibility (_stack c)).
Proof.
  split; intros Hh.
  - unfold legendToggle. rewrite Hh. reflexivity.
  - split; [unfold legendToggle; rewrite Hh; reflexivity|].
    destruct (legendToggle_stack c n Hh) as [E1 Hh1].
    destruct (legendToggle_stack _ n Hh1) as [E2 _].
    rewrite E2, E1. apply toggledStack_twice.
Qed.

Lemma count_visible_imap {B} (f : nat -> Layer -> B) (p : B -> bool) st :
  (forall i l, p (f i l) = _visibility l) ->
  length (List.filter p (imap f st)) = length (List.filter _visibility st).
Proof.
  revert f. induction st as [|l st IH]; intros f Hp; simpl; [reflexivity|].
  rewrite Hp. destruct (_visibility l); simpl; rewrite IH; auto;
    intros i l'; apply Hp.
Qed.

(** X24: [legendables()] has one entry per layer of the stack, hidden
    ones included, in stack order and under the layers' names, whether
    [data()] returns or throws; the entries not flagged hidden are as
    many as the visible layers, and so as many as the layers [data()]
    returns when it does. *)
Theorem legendables_cover_stack {C : Type}
    (getColor : Layer -> list Point -> nat -> C) c :
  length (legendables getColor c) = length (_stack c)
  /\ map (@lg_name C) (legendables getColor c) = map l_name (_stack c)
  /\ length (List.filter (fun e => negb (lg_hidden C e))
                         (legendables getColor c))
     = length (visibleLayers c)
  /\ (forall ls c',
        data c = Some (ls, c') ->
        length (List.filter (fun e => negb (lg_hidden C e))
                            (legendables getColor c))
        = length ls).
Proof.
  assert (Hvis : length (List.filter (fun e => negb (lg_hidden C e))
                                     (legendables getColor c))
                 = length (visibleLayers c)).
  { unfold legendables, visibleLayers. apply count_visible_imap.
    intros i l. unfold _visibility. cbn [lg_hidden].
    destruct (l_hidden l) as [[|]|]; reflexivity. }
  split; [apply length_imap|]. split; [|split; [exact Hvis|]].
  - unfold legendables. rewrite map_imap. cbn [lg_name]. apply imap_plain.
  - intros ls c' Hd. destruct (data_heads c ls c' Hd) as (H1 & _).
    rewrite Hvis, <- (length_map layerHead ls), H1, length_map.
    reflexivity.
Qed.

End HideMore.

Lemma hideStack_first_named_witness :
  map l_hidden (_stack (hideStack twoLayerChart "B")) = [None; Some true]
  /\ hideStack twoLayerChart "C" = twoLayerChart.
Proof.
  destruct (hideStack_first_named twoLayerChart "B") as [_ Hsome].
  destruct (hideStack_first_named twoLayerChart "C") as [Hnone _].
  split.
  - destruct (Hsome {| l_group := groupB; l_name := Some "B";
                       l_accessor := None; l_hidden := None;
                       l_values := []; l_domainValues := [] |} eq_refl)
      as (i & Hi & _ & _ & Hh & _).
    rewrite Hh. destruct i as [|[|i]]; [discriminate Hi | reflexivity |].
    discriminate Hi.
  - apply Hnone. reflexivity.
Defined.

Lemma legendToggle_twice_witness :
  let c := hidableStacks twoLayerChart true in
  map _visibility (_stack (legendToggle c "B").1) = [true; false]
  /\ map _visibility (_stack (legendToggle (legendToggle c "B").1 "B").1)
     = [true; true].
Proof.
  intros c. split; [reflexivity|].
  destruct (legendToggle_twice c "B") as [_ Hon].
  destruct Hon as [_ Hv]; [reflexivity|]. rewrite Hv. reflexivity.
Defined.

Lemma legendables_cover_stack_witness :
  let c := hideStack twoLayerChart "B" in
  length (legendables (fun _ _ i => i) c) = 2%nat
  /\ length (List.filter (fun e => negb (lg_hidden nat e))
                         (legendables (fun _ _ i => i) c)) = 1%nat.
Proof.
  intros c.
  destruct (data c) as [[ls c']|] eqn:E; [|vm_compute in E; discriminate E].
  destruct (legendables_cover_stack (fun _ _ i => i) c)
    as (Hlen & _ & _ & Hvis).
  split; [rewrite Hlen; reflexivity|]. rewrite (Hvis ls c' E).
  destruct (data_heads c ls c' E) as (Hh & _).
  rewrite <- (length_map layerHead ls), Hh. reflexivity.
Defined.

Lemma prepared_name_persists_witness :
  let layer := {| l_group := groupA; l_name := Some ""; l_accessor := None;
                  l_hidden := None; l_values := []; l_domainValues := [] |} in
  l_name (_prepareValues plainChart (_prepareValues plainChart layer 3) 0)
  = Some "3".
Proof.
  intros layer.
  destruct (prepared_name_persists plainChart layer 3)
    as (name & _ & _ & _ & Hidx & Hkeep).
  rewrite Hkeep, Hidx; [reflexivity | right; reflexivity].
Defined.

Section DataAgain.
Context {V : Type} `{JsValue V}.
Implicit Types (c : Chart V) (layer : Layer) (ls st : list Layer).

Lemma lookup_map {A B} (g : A -> B) (l : list A) i :
  map g l !! i = option_map g (l !! i).
Proof.
  revert i. induction l as [|x l IH]; intros [|i]; simpl; auto.
Qed.

Lemma data_unfold c :
  data c =
  match visibleLayers c with
  | [] => Some ([], c)
  | _ :: _ =>
      match head (preparedLayers c) with
      | None => None
      | Some first =>
          match mapM id (imap (column (preparedLayers c))
                              (l_values first)) with
          | None => None
          | Some v4data =>
              match writeBack c (preparedLayers c)
                      (_stackLayout c (map nameOf (preparedLayers c))
                                    v4data) 0 with
              | None => None
              | Some ls' =>
                  Some (ls', set_stack c (putBack (_stack c) ls'))
              end
          end
      end
  end.
Proof.
  unfold data, preparedLayers. fold (visibleLayers c).
  destruct (visibleLayers c); reflexivity.
Qed.

Lemma writeBack_set_stack c st ls v4result i :
  writeBack (set_stack c st) ls v4result i = writeBack c ls v4result i.
Proof.
  revert ls i. induction v4result as [|series rest IH]; intros ls i; simpl;
    [reflexivity|].
  destruct series as [|ys series]; [apply IH|].
  destruct (ls !! i) as [layer|]; [|reflexivity].
  destruct (writeSeries (l_values layer) (ys :: series) 0); [|reflexivity].
  apply IH.
Qed.

Lemma putBack_again st ls :
  Forall (fun l => _visibility l = true) ls ->
  length ls = length (List.filter _visibility st) ->
  putBack (putBack st ls) ls = putBack st ls.
Proof.
  revert ls. induction st as [|l st IH]; intros ls Hvis Hlen; simpl in *;
    [reflexivity|].
  destruct (_visibility l) eqn:Hl; simpl in *.
  - destruct ls as [|l' ls]; [discriminate|].
    inversion Hvis as [|? ? Hl' Hvis']; subst. injection Hlen as Hlen.
    simpl. rewrite Hl', IH by assumption. reflexivity.
  - rewrite Hl, IH by assumption. reflexivity.
Qed.

Lemma prepare_again c st l l' i :
  layerHead l' = layerHead l ->
  l_name l' = Some (resolvedName (l_name l) i) ->
  _prepareValues (set_stack c st) l' i = _prepareValues c l i.
Proof.
  intros Hh Hn. injection Hh as Hg Ha Hhid.
  unfold _prepareValues, allValues.
  change (_domainFilter (set_stack c st)) with (_domainFilter c).
  cbn [_evadeDomainFilter _valueAccessor _keyAccessor set_stack].
  rewrite Hg, Ha, Hhid, Hn, resolvedName_resolved. reflexivity.
Qed.

(** X25: [data()] can be asked again: with the groups unchanged, a second
    call returns the same layers as the first and leaves the chart as the
    first call left it; the names, values and baselines are recomputed to
    the same result. *)
Theorem data_again c ls c' :
  data c = Some (ls, c') -> data c' = Some (ls, c').
Proof.
  intros Hd.
  destruct (data_heads c ls c' Hd) as (Hh & Hn).
  destruct (data_putBack c ls c' Hd) as (Hput & Hvis & Hlen).
  assert (Hv' : visibleLayers c' = ls).
  { rewrite Hput. unfold visibleLayers. cbn [_stack set_stack].
    apply putBack_spec; assumption. }
  assert (Hc' : c' = set_stack c (_stack c')) by (rewrite Hput; reflexivity).
  pose proof Hd as Hd0. rewrite data_unfold in Hd0.
  rewrite data_unfold, Hv'.
  destruct (visibleLayers c) as [|l0 vs] eqn:Hvs.
  { injection Hd0 as <- <-. reflexivity. }
  destruct ls as [|l1 ls1]; [discriminate Hh|].
  assert (Hp : preparedLayers c' = preparedLayers c).
  { unfold preparedLayers. rewrite Hv', Hvs. apply list_eq. intros i.
    rewrite !list_lookup_imap.
    assert (H1 := f_equal (fun l => l !! i) Hh).
    assert (H2 := f_equal (fun l => l !! i) Hn).
    cbv beta in H1, H2.
    rewrite !lookup_map in H1. rewrite lookup_map, list_lookup_imap in H2.
    destruct ((l1 :: ls1) !! i) as [l'|];
      destruct ((l0 :: vs) !! i) as [l|]; simpl in *; try discriminate;
      [|reflexivity].
    injection H1 as H1g H1a H1h. injection H2 as H2.
    rewrite Hc'. f_equal.
    apply prepare_again; [unfold layerHead; congruence | exact H2]. }
  rewrite Hp.
  assert (Hl : _stackLayout c' = _stackLayout c) by (rewrite Hc'; reflexivity).
  rewrite Hl.
  destruct (head (preparedLayers c)) as [first|]; [|discriminate Hd0].
  destruct (mapM id _) as [v4data|]; [|discriminate Hd0].
  assert (Hw : forall r, writeBack c' (preparedLayers c) r 0
                         = writeBack c (preparedLayers c) r 0)
    by (intros r; rewrite Hc'; apply writeBack_set_stack).
  rewrite Hw.
  destruct (writeBack c _ _ 0) as [ls'|]; [|discriminate Hd0].
  injection Hd0 as -> Hc.
  clear - Hc Hvis Hlen. subst c'. f_equal. f_equal.
  cbn [set_stack _stack]. rewrite putBack_again by assumption.
  reflexivity.
Qed.

End DataAgain.

Lemma data_again_witness :
  exists ls c',
    data twoLayerChart = Some (ls, c')
    /\ data c' = Some (ls, c')
    /\ map l_name ls = [Some "A"; Some "B"].
Proof.
  destruct (data twoLayerChart) as [[ls c']|] eqn:E;
    [|vm_compute in E; discriminate E].
  exists ls, c'. split; [reflexivity|].
  split; [apply (data_again twoLayerChart); exact E|].
  destruct (data_heads _ _ _ E) as (_ & Hn).
  rewrite Hn. reflexivity.
Defined.

Section DataPoints.
Context {V : Type} `{JsValue V}.
Implicit Types (c : Chart V) (ls : list Layer).

Lemma writeSeries_keeps (values : list Point) series j values' :
  writeSeries values series j = Some values' ->
  map pointCore values' = map pointCore values.
Proof.
  revert values j. induction series as [|ys rest IH]; intros values j; simpl.
  - intros [= <-]. reflexivity.
  - destruct (values !! j) as [p|] eqn:Hj; [|discriminate].
    intros Hw. apply IH in Hw. rewrite Hw.
    apply (map_insert_same _ _ _ p); auto.
Qed.

Lemma writeBack_keeps_points c ls v4result i ls' :
  writeBack c ls v4result i = Some ls' ->
  map (fun l => map pointCore (l_values l)) ls'
  = map (fun l => map pointCore (l_values l)) ls.
Proof.
  revert ls i. induction v4result as [|series rest IH]; intros ls i; simpl.
  - intros [= <-]. reflexivity.
  - destruct series as [|ys series]; [apply IH|].
    destruct (ls !! i) as [layer|] eqn:Hi; [|discriminate].
    destruct (writeSeries (l_values layer) (ys :: series) 0)
      as [values|] eqn:Hs; [|discriminate].
    intros Hw. apply IH in Hw. rewrite Hw.
    apply (map_insert_same _ _ _ layer); [exact Hi|].
    cbn [withValues l_values]. eapply writeSeries_keeps. exact Hs.
Qed.

(** X26: the write-back of the stacking result only sets baselines: in
    the layers [data()] returns, the points are those [_prepareValues]
    made -- same number, same order, same [x], [y], record, label and
    hidden flag -- whatever the stack layout answered. *)
Theorem data_keeps_points c ls c' :
  data c = Some (ls, c') ->
  map (fun l => map pointCore (l_values l)) ls
  = map (fun l => map pointCore (l_values l)) (preparedLayers c).
Proof.
  intros Hd. apply data_inv in Hd as [(Hv & -> & _) | (_ & _ & v4 & Hw)].
  - unfold preparedLayers. rewrite Hv. reflexivity.
  - eapply writeBack_keeps_points. exact Hw.
Qed.

End DataPoints.

(** X26 under a layout that answers three empty series for two
    layers. *)
Lemma data_keeps_points_witness :
  let c := set_stackLayout twoLayerChart (fun _ _ => [[]; []; []]) in
  exists ls c',
    data c = Some (ls, c')
    /\ map (fun l => map p_y (l_values l)) ls
       = [[Some 3; Some 5]; [Some 2; Some 1]]%Z
    /\ map (fun l => map p_y0 (l_values l)) ls = [[None; None]; [None; None]].
Proof.
  intros c.
  destruct (data c) as [[ls c']|] eqn:E; [|vm_compute in E; discriminate E].
  exists ls, c'. split; [reflexivity|].
  pose proof (data_keeps_points c ls c' E) as Hk.
  assert (E' : Some (ls, c') = data c) by (symmetry; exact E).
  vm_compute in E'. injection E' as -> _. split; reflexivity.
Defined.
